(** * Resume ingestion and heuristic field extraction

    A shallow embedding of the server-side import pipeline:
    - [ParserService.parse]            (parser.service.ts)
    - [OcrService.recognizeImageBuffer] (ocr.service.ts)
    - [ResumeService.importFromFile], [ResumeService.ocrPdfBuffer]
                                        (resume.service.ts)
    - [ResumeController.importFile]     (resume.controller.ts)

    JavaScript strings are sequences of UTF-16 code units; they are
    modelled as lists of [N].  External libraries (pdf-parse, pdf2pic,
    tesseract.js, mammoth, slugify, prisma) are fields of an environment
    record; every call into one of them is logged in an event trace. *)

From Stdlib Require Import List NArith Arith Bool Lia String Ascii.
From Stdlib Require Import DecimalString.
Import ListNotations.


(** ** JavaScript strings *)

Module JsString.

Definition code_unit := N.
Definition jsstring := list code_unit.

(** [u "abc"] is the JavaScript string with the same ASCII characters. *)
Definition u (s : string) : jsstring :=
  map N_of_ascii (list_ascii_of_string s).

Definition cu_eqb (a b : code_unit) : bool := N.eqb a b.

Fixpoint str_eqb (a b : jsstring) : bool :=
  match a, b with
  | [], [] => true
  | x :: a', y :: b' => cu_eqb x y && str_eqb a' b'
  | _, _ => false
  end.

Definition in_range (lo hi c : code_unit) : bool :=
  (N.leb lo c) && (N.leb c hi).

Local Open Scope N_scope.

(** Code units of the characters the source names outside ASCII. *)
Definition EN_DASH : code_unit := 8211.     (* U+2013 *)
Definition EM_DASH : code_unit := 8212.     (* U+2014 *)
Definition BULLET : code_unit := 8226.      (* U+2022 *)
Definition MIDDLE_DOT : code_unit := 183.   (* U+00B7 *)
Definition KELVIN_SIGN : code_unit := 8490. (* U+212A *)
Definition CAPITAL_I_DOT : code_unit := 304. (* U+0130 *)
Definition COMBINING_DOT : code_unit := 775. (* U+0307 *)
Definition LF : code_unit := 10.
Definition CR : code_unit := 13.

(** ECMAScript WhiteSpace and LineTerminator: what [String.prototype.trim]
    strips and what [\s] matches. *)
Definition isWs (c : code_unit) : bool :=
  in_range 9 13 c || cu_eqb c 32 || cu_eqb c 160 || cu_eqb c 5760
  || in_range 8192 8202 c || cu_eqb c 8232 || cu_eqb c 8233
  || cu_eqb c 8239 || cu_eqb c 8287 || cu_eqb c 12288 || cu_eqb c 65279.

(** LineTerminator: what [.] refuses to match. *)
Definition isLineTerminator (c : code_unit) : bool :=
  cu_eqb c LF || cu_eqb c CR || cu_eqb c 8232 || cu_eqb c 8233.

Definition isDigit (c : code_unit) : bool := in_range 48 57 c.
Definition isUpper (c : code_unit) : bool := in_range 65 90 c.
Definition isLower (c : code_unit) : bool := in_range 97 122 c.
Definition isAsciiLetter (c : code_unit) : bool := isUpper c || isLower c.

Local Close Scope N_scope.

Fixpoint dropWhile (p : code_unit -> bool) (s : jsstring) : jsstring :=
  match s with
  | [] => []
  | c :: r => if p c then dropWhile p r else s
  end.

Definition trimStart (s : jsstring) : jsstring := dropWhile isWs s.
Definition trimEnd (s : jsstring) : jsstring := rev (dropWhile isWs (rev s)).
(** [s.trim()] *)
Definition trim (s : jsstring) : jsstring := trimEnd (trimStart s).

(** Truthiness of a string: [Boolean(s)], [if (s)], [!s]. *)
Definition truthy (s : jsstring) : bool :=
  match s with [] => false | _ => true end.

(** [s.startsWith(p)] *)
Fixpoint startsWith (p s : jsstring) : bool :=
  match p, s with
  | [], _ => true
  | x :: p', y :: s' => cu_eqb x y && startsWith p' s'
  | _ :: _, [] => false
  end.

(** [s.includes(p)] *)
Fixpoint includes (p s : jsstring) : bool :=
  startsWith p s ||
  match s with
  | [] => false
  | _ :: s' => includes p s'
  end.

(** [s.toLowerCase()].  ASCII capitals map to their small letters.  Two
    characters outside ASCII have a lower case that contains an ASCII
    letter: the Kelvin sign (to [k]) and the dotted capital I (to [i]
    followed by a combining dot).  Every other character outside ASCII
    lower-cases to characters outside ASCII, which no pattern of this
    program mentions, and is left as it is. *)
Definition lowerUnit (c : code_unit) : jsstring :=
  if isUpper c then [(c + 32)%N]
  else if cu_eqb c KELVIN_SIGN then [107%N]
  else if cu_eqb c CAPITAL_I_DOT then [105%N; COMBINING_DOT]
  else [c].

Definition toLowerCase (s : jsstring) : jsstring := flat_map lowerUnit s.

(** [parts.join(sep)] *)
Fixpoint join (sep : jsstring) (parts : list jsstring) : jsstring :=
  match parts with
  | [] => []
  | [p] => p
  | p :: rest => p ++ sep ++ join sep rest
  end.

(** [s.split(/[...]/)] for a pattern that matches exactly one code unit
    satisfying [p]: the pieces between the separators, empty pieces kept. *)
Fixpoint splitOnAux (p : code_unit -> bool) (s cur : jsstring) : list jsstring :=
  match s with
  | [] => [rev cur]
  | c :: r => if p c then rev cur :: splitOnAux p r []
              else splitOnAux p r (c :: cur)
  end.
Definition splitOn (p : code_unit -> bool) (s : jsstring) : list jsstring :=
  splitOnAux p s [].

(** [s.split(/\r?\n/)]: a separator is a line feed, together with the
    carriage return right before it when there is one. *)
Fixpoint splitLinesAux (s cur : jsstring) : list jsstring :=
  match s with
  | [] => [rev cur]
  | c :: r =>
      if cu_eqb c LF then rev cur :: splitLinesAux r []
      else if cu_eqb c CR then
        match r with
        | d :: r' => if cu_eqb d LF then rev cur :: splitLinesAux r' []
                     else splitLinesAux r (c :: cur)
        | [] => splitLinesAux r (c :: cur)
        end
      else splitLinesAux r (c :: cur)
  end.
Definition splitLines (s : jsstring) : list jsstring := splitLinesAux s [].

(** [s.split(/\s+/)]: a separator is a maximal run of white space; a
    leading or trailing run leaves an empty piece at that end. *)
Fixpoint splitWsAux (s cur : jsstring) (prevWs : bool) : list jsstring :=
  match s with
  | [] => [rev cur]
  | c :: r =>
      if isWs c then
        if prevWs then splitWsAux r cur true
        else rev cur :: splitWsAux r [] true
      else splitWsAux r (c :: cur) false
  end.
Definition splitWs (s : jsstring) : list jsstring := splitWsAux s [] false.

(** [s.split(/\n{2,}/)[0]]: the text before the first run of two or more
    line feeds ([split] always returns at least one piece). *)
Fixpoint firstParagraph (s : jsstring) : jsstring :=
  match s with
  | [] => []
  | c :: r =>
      if cu_eqb c LF then
        match r with
        | d :: _ => if cu_eqb d LF then [] else c :: firstParagraph r
        | [] => [c]
        end
      else c :: firstParagraph r
  end.

(** [s.slice(0, n)] *)
Definition slice0 (n : nat) (s : jsstring) : jsstring := firstn n s.

(** [a ?? b] on a possibly [undefined]/[null] value. *)
Definition nullish {A : Type} (a : option A) (b : A) : A :=
  match a with Some x => x | None => b end.

(** Decimal rendering of a page index, as in the template ["page" + i]. *)
Definition decimal (n : nat) : jsstring :=
  u (NilEmpty.string_of_uint (Nat.to_uint n)).

End JsString.
Import JsString.

(** ** A backtracking matcher for the regular expressions of the parser

    The matcher follows the ECMAScript semantics: it is written in
    continuation-passing style, alternatives and quantifiers are tried in
    priority order (greedy: longest first, lazy: shortest first), and the
    first complete match wins. *)

Module Regex.

Inductive regex : Type :=
| Eps : regex
| Chr (p : code_unit -> bool) : regex         (* a character class *)
| Bol : regex                                 (* ^ without the m flag *)
| Eol : regex                                 (* $ without the m flag *)
| Seq (a b : regex) : regex
| Alt (a b : regex) : regex
| Rep (a : regex) (lo : nat) (hi : option nat) (greedy : bool) : regex
| Group (i : nat) (a : regex) : regex.

Record mstate : Type := MState {
  m_pos : nat;                       (* index of the next code unit *)
  m_rest : jsstring;                 (* input from that index on *)
  m_caps : list (nat * jsstring)     (* captures, latest first *)
}.

Definition cont := mstate -> option mstate.

Definition reached (hi : option nat) (count : nat) : bool :=
  match hi with
  | Some h => h <=? count
  | None => false
  end.

(** RepeatMatcher: [count] iterations are done.  Below [lo] another one is
    mandatory; from [lo] on an iteration that consumes nothing is refused. *)
Fixpoint rep_loop (body : mstate -> cont -> option mstate)
    (lo : nat) (hi : option nat) (greedy : bool) (k : cont)
    (fuel count : nat) (st : mstate) {struct fuel} : option mstate :=
  match fuel with
  | 0 => None
  | S fuel' =>
      let again (_ : unit) :=
        if reached hi count then None
        else body st (fun st1 =>
               if (lo <=? count) && (m_pos st1 =? m_pos st) then None
               else rep_loop body lo hi greedy k fuel' (S count) st1) in
      if count <? lo then again tt
      else if greedy then
        match again tt with
        | Some r => Some r
        | None => k st
        end
      else
        match k st with
        | Some r => Some r
        | None => again tt
        end
  end.

Fixpoint rmatch (r : regex) (st : mstate) (k : cont) {struct r} : option mstate :=
  match r with
  | Eps => k st
  | Chr p =>
      match m_rest st with
      | c :: t => if p c then k (MState (S (m_pos st)) t (m_caps st)) else None
      | [] => None
      end
  | Bol => if m_pos st =? 0 then k st else None
  | Eol => match m_rest st with [] => k st | _ :: _ => None end
  | Seq a b => rmatch a st (fun st1 => rmatch b st1 k)
  | Alt a b =>
      match rmatch a st k with
      | Some res => Some res
      | None => rmatch b st k
      end
  | Rep a lo hi greedy =>
      rep_loop (rmatch a) lo hi greedy k
               (S (lo + List.length (m_rest st))) 0 st
  | Group i a =>
      rmatch a st (fun st1 =>
        k (MState (m_pos st1) (m_rest st1)
             ((i, firstn (m_pos st1 - m_pos st) (m_rest st)) :: m_caps st)))
  end.

(** The result of [exec]: where the match starts, the matched text, and
    the captures. *)
Record rmatched : Type := RMatched {
  r_index : nat;
  r_text : jsstring;
  r_end : nat;
  r_caps : list (nat * jsstring)
}.

(** Try the pattern at [pos], then at every later index. *)
Fixpoint searchFrom (r : regex) (pos : nat) (rest : jsstring) : option rmatched :=
  match rmatch r (MState pos rest []) (fun st => Some st) with
  | Some st =>
      Some (RMatched pos (firstn (m_pos st - pos) rest) (m_pos st) (m_caps st))
  | None =>
      match rest with
      | [] => None
      | _ :: rest' => searchFrom r (S pos) rest'
      end
  end.

(** [s.match(re)] / [re.exec(s)] for a pattern without the g flag. *)
Definition exec (r : regex) (s : jsstring) : option rmatched := searchFrom r 0 s.

(** [re.test(s)] *)
Definition test (r : regex) (s : jsstring) : bool :=
  match exec r s with Some _ => true | None => false end.

(** [m[i]] for a capture group that took part in the match. *)
Fixpoint lookupCap (i : nat) (caps : list (nat * jsstring)) : jsstring :=
  match caps with
  | [] => []
  | (j, v) :: rest => if j =? i then v else lookupCap i rest
  end.
Definition group (m : rmatched) (i : nat) : jsstring := lookupCap i (r_caps m).

(** [s.match(re)] for a pattern with the g flag: every match, left to
    right, each search resuming where the previous match ended (one
    further when that match was empty). *)
Fixpoint matchAllFrom (r : regex) (fuel pos : nat) (rest : jsstring) : list jsstring :=
  match fuel with
  | 0 => []
  | S fuel' =>
      match searchFrom r pos rest with
      | None => []
      | Some m =>
          let step :=
            (r_end m - pos) + (if r_end m =? r_index m then 1 else 0) in
          r_text m ::
            (if List.length rest <? step then []
             else matchAllFrom r fuel' (pos + step) (skipn step rest))
      end
  end.
Definition matchAll (r : regex) (s : jsstring) : option (list jsstring) :=
  match matchAllFrom r (S (List.length s)) 0 s with
  | [] => None
  | ms => Some ms
  end.

(** Pattern builders. *)
Definition isChar (c : code_unit) : code_unit -> bool := fun x => cu_eqb x c.
Definition oneOf (cs : jsstring) : code_unit -> bool :=
  fun x => existsb (cu_eqb x) cs.
(** A letter of a pattern under the i flag: Canonicalize maps a character
    to its upper case unless that would turn a character outside ASCII
    into an ASCII one, so an ASCII letter matches its two cases only. *)
Definition isCI (c : code_unit) : code_unit -> bool :=
  fun x => if isAsciiLetter c
           then cu_eqb x c || cu_eqb x (if isLower c then c - 32 else c + 32)%N
           else cu_eqb x c.
Definition dot : regex := Chr (fun c => negb (isLineTerminator c)).
Definition ws : regex := Chr isWs.
Fixpoint lit (s : jsstring) : regex :=
  match s with
  | [] => Eps
  | c :: r => Seq (Chr (isChar c)) (lit r)
  end.
Fixpoint litCI (s : jsstring) : regex :=
  match s with
  | [] => Eps
  | c :: r => Seq (Chr (isCI c)) (litCI r)
  end.
Definition star (a : regex) := Rep a 0 None true.
Definition plus (a : regex) := Rep a 1 None true.
Definition lazyStar (a : regex) := Rep a 0 None false.
Definition opt (a : regex) := Rep a 0 (Some 1) true.
Fixpoint seqs (rs : list regex) : regex :=
  match rs with
  | [] => Eps
  | [r] => r
  | r :: rest => Seq r (seqs rest)
  end.

End Regex.
Import Regex.

(** ** The heuristic field parser (parser.service.ts) *)

Module Parser.

Record ExperienceEntry : Type := mkExperience {
  title : option jsstring;
  company : option jsstring;
  exp_dateRange : option jsstring;
  description : option jsstring
}.

Record EducationEntry : Type := mkEducation {
  degree : option jsstring;
  institution : option jsstring;
  edu_dateRange : option jsstring
}.

Record ParsedResume : Type := mkParsed {
  name : option jsstring;
  email : option jsstring;
  phone : option jsstring;
  skills : list jsstring;
  experience : list ExperienceEntry;
  education : list EducationEntry;
  raw : jsstring
}.

Definition isAlnum (c : code_unit) : bool := isAsciiLetter c || isDigit c.

(** [/[a-zA-Z0-9._%+-]+@[a-zA-Z0-9.-]+\.[a-zA-Z]{2,}/] *)
Definition emailRe : regex :=
  seqs [ plus (Chr (fun c => isAlnum c || oneOf (u "._%+-") c));
         Chr (isChar 64%N);
         plus (Chr (fun c => isAlnum c || oneOf (u ".-") c));
         Chr (isChar 46%N);
         Rep (Chr isAsciiLetter) 2 None true ].

(** [/\+?[0-9]{7,15}/g] *)
Definition phoneRe : regex :=
  seqs [ opt (Chr (isChar 43%N)); Rep (Chr isDigit) 7 (Some 15) true ].

(** The class [[A-Za-z ,.'-]] *)
Definition isNameChar (c : code_unit) : bool :=
  isAsciiLetter c || oneOf (u " ,.'-") c.

(** [/^[A-Za-z ,.'-]{2,80}$/] *)
Definition nameRe : regex :=
  seqs [ Bol; Rep (Chr isNameChar) 2 (Some 80) true; Eol ].

(** [/^skills?/i] *)
Definition skillsHeadRe : regex :=
  seqs [ Bol; litCI (u "skill"); opt (Chr (isCI 115%N)) ].

(** [/^experience/i], [/^work experience/i], [/^education/i] *)
Definition experienceRe : regex := Seq Bol (litCI (u "experience")).
Definition workExperienceRe : regex := Seq Bol (litCI (u "work experience")).
Definition educationRe : regex := Seq Bol (litCI (u "education")).

(** [/degree|university|bachelor|master/i] *)
Definition educationWordsRe : regex :=
  Alt (litCI (u "degree"))
    (Alt (litCI (u "university"))
       (Alt (litCI (u "bachelor")) (litCI (u "master")))).

(** The class [[\-–—@]]: hyphen, en dash, em dash, at sign. *)
Definition isEntryDash (c : code_unit) : bool :=
  cu_eqb c 45%N || cu_eqb c EN_DASH || cu_eqb c EM_DASH || cu_eqb c 64%N.

(** [/^(.*?)\s+[\-–—@]\s+(.*?)\s*\(?([0-9]{4}.*?)[\)]?$/] *)
Definition entryRe : regex :=
  seqs [ Bol;
         Group 1 (lazyStar dot);
         plus ws;
         Chr isEntryDash;
         plus ws;
         Group 2 (lazyStar dot);
         star ws;
         opt (Chr (isChar 40%N));
         Group 3 (Seq (Rep (Chr isDigit) 4 (Some 4) true) (lazyStar dot));
         opt (Chr (isChar 41%N));
         Eol ].

(** The class [[:\-–]] of the first split of a skills line, with the
    alternative [\n]: colon, hyphen, en dash, line feed. *)
Definition isSkillsHeadSep (c : code_unit) : bool :=
  cu_eqb c 58%N || cu_eqb c 45%N || cu_eqb c EN_DASH || cu_eqb c LF.

(** The class [[;,|•·]] of the second split. *)
Definition isSkillsItemSep (c : code_unit) : bool :=
  cu_eqb c 59%N || cu_eqb c 44%N || cu_eqb c 124%N
  || cu_eqb c BULLET || cu_eqb c MIDDLE_DOT.

(** [raw.split(/\r?\n/).map((l) => l.trim()).filter(Boolean)] *)
Definition linesOf (raw : jsstring) : list jsstring :=
  filter truthy (map trim (splitLines raw)).

(** The test of the name candidate. *)
Definition nameAccepted (candidate : jsstring) : bool :=
  test nameRe candidate && (List.length (splitWs candidate) <=? 5).

Definition parseName (lines : list jsstring) : option jsstring :=
  match lines with
  | candidate :: _ => if nameAccepted candidate then Some candidate else None
  | [] => None
  end.

(** The condition that selects the skills line. *)
Definition isSkillsLine (line : jsstring) : bool :=
  test skillsHeadRe line || includes (u "skill") (toLowerCase line).

(** [line.split(/[:\-–]|\n/).slice(1).join(" ").split(/[;,|•·]/)
       .map((s) => s.trim()).filter(Boolean)] *)
Definition skillsParts (line : jsstring) : list jsstring :=
  filter truthy
    (map trim
       (splitOn isSkillsItemSep
          (join (u " ") (skipn 1 (splitOn isSkillsHeadSep line))))).

(** The loop over [lines.slice(0, 30)], left at the first skills line. *)
Fixpoint skillsScan (ls : list jsstring) : list jsstring :=
  match ls with
  | [] => []
  | line :: rest => if isSkillsLine line then skillsParts line else skillsScan rest
  end.

Definition parseSkills (lines : list jsstring) : list jsstring :=
  skillsScan (firstn 30 lines).

Inductive Section_ : Type := SecExperience | SecEducation.

Record SectionState : Type := mkSectionState {
  currentSection : option Section_;
  acc_experience : list ExperienceEntry;
  acc_education : list EducationEntry
}.

Definition isExperienceHeader (line : jsstring) : bool :=
  test experienceRe line || test workExperienceRe line.
Definition isEducationHeader (line : jsstring) : bool :=
  test educationRe line || test educationWordsRe line.

(** One iteration of the sectioning loop. *)
Definition sectionStep (st : SectionState) (line : jsstring) : SectionState :=
  if isExperienceHeader line then
    mkSectionState (Some SecExperience) (acc_experience st) (acc_education st)
  else if isEducationHeader line then
    mkSectionState (Some SecEducation) (acc_experience st) (acc_education st)
  else
    match currentSection st with
    | Some SecExperience =>
        match exec entryRe line with
        | Some m =>
            mkSectionState (currentSection st)
              (acc_experience st ++
                 [mkExperience (Some (trim (group m 1))) (Some (trim (group m 2)))
                               (Some (trim (group m 3))) None])
              (acc_education st)
        | None => st
        end
    | Some SecEducation =>
        match exec entryRe line with
        | Some m =>
            mkSectionState (currentSection st) (acc_experience st)
              (acc_education st ++
                 [mkEducation (Some (trim (group m 1))) (Some (trim (group m 2)))
                              (Some (trim (group m 3)))])
        | None => st
        end
    | None => st
    end.

Definition parseSections (lines : list jsstring) : SectionState :=
  fold_left sectionStep lines (mkSectionState None [] []).

(** [ParserService.parse] *)
Definition parse (text : jsstring) : ParsedResume :=
  let raw := nullish (Some text) [] in
  let emailMatch := exec emailRe raw in
  let phoneMatch := matchAll phoneRe raw in
  let lines := linesOf raw in
  let sections := parseSections lines in
  mkParsed (parseName lines)
           (option_map r_text emailMatch)
           (match phoneMatch with Some (p :: _) => Some p | _ => None end)
           (parseSkills lines)
           (acc_experience sections)
           (acc_education sections)
           raw.

End Parser.
Import Parser.

(** ** Effects: exceptions and the trace of calls *)

Module Effects.

Definition Buffer := list N.

(** What the server throws.  The three rejections of the import are all
    [BadRequestException]s and differ by their message only. *)
Inductive Exception : Type :=
| BadRequestException (message : string)
| InternalServerErrorException (cause : Exception)
| LibraryError (library : string)
| NullishValue      (* a promise rejected with, or a throw of, null or undefined *)
| TypeError.        (* reading a property of null or undefined *)

Definition NoFileProvided : Exception :=
  BadRequestException "No file provided".
Definition UnsupportedFormat : Exception :=
  BadRequestException
    "Unsupported file. Please upload a PDF (.pdf), Word document (.docx) or image.".
Definition MalformedDocument : Exception :=
  BadRequestException
    "Failed to parse Word document. Please ensure it's a valid .docx file.".
Definition ImageOcrFailed : Exception :=
  BadRequestException "Failed to OCR the uploaded image.".
Definition NoExtractableText : Exception :=
  BadRequestException
    "Failed to extract text from the provided file. Please try a different file or enable OCR.".

(** The row handed to [prisma.resume.create].  The resume data is the
    schema's constant default with [basics.headline] replaced. *)
Record ResumeRow : Type := mkRow {
  row_userId : jsstring;
  row_visibility : string;
  row_headline : jsstring;
  row_title : jsstring;
  row_slug : jsstring
}.

(** Calls that the claims observe. *)
Inductive Event : Type :=
| EvPdfParse (b : Buffer)              (* pdf-parse on the upload *)
| EvOcrPdfBuffer (b : Buffer)          (* ocrPdfBuffer entered *)
| EvRasterize (b : Buffer)             (* pdf2pic convert.bulk *)
| EvRecognize (b : Buffer)             (* OcrService.recognizeImageBuffer *)
| EvMammoth (b : Buffer)               (* mammoth.extractRawText *)
| EvParse (text : jsstring)            (* ParserService.parse *)
| EvFindFirst (userId slug : jsstring) (* prisma.resume.findFirst *)
| EvCreate (row : ResumeRow).          (* prisma.resume.create *)

Inductive Outcome (A : Type) : Type :=
| Returned (a : A)
| Thrown (e : Exception)
| Diverged.
Arguments Returned {A} a.
Arguments Thrown {A} e.
Arguments Diverged {A}.

(** A computation: the calls it made, in order, and how it ended. *)
Definition M (A : Type) : Type := (list Event * Outcome A)%type.

Definition ret {A} (a : A) : M A := ([], Returned a).
Definition throw {A} (e : Exception) : M A := ([], Thrown e).
Definition diverge {A} : M A := ([], Diverged).
Definition emit (e : Event) : M unit := ([e], Returned tt).

Definition bind {A B} (m : M A) (f : A -> M B) : M B :=
  match m with
  | (t, Returned a) => let (t', o) := f a in (t ++ t', o)
  | (t, Thrown e) => (t, Thrown e)
  | (t, Diverged) => (t, Diverged)
  end.

(** [try { m } catch (e) { h e }] *)
Definition tryCatch {A} (m : M A) (h : Exception -> M A) : M A :=
  match m with
  | (t, Thrown e) => let (t', o) := h e in (t ++ t', o)
  | other => other
  end.

Definition trace {A} (m : M A) : list Event := fst m.
Definition outcome {A} (m : M A) : Outcome A := snd m.

End Effects.
Import Effects.

Declare Scope m_scope.
Delimit Scope m_scope with M.
Notation "x <- m ;; k" := (bind m (fun x => k))
  (at level 61, m at next level, right associativity) : m_scope.
Notation "m ;;; k" := (bind m (fun _ => k))
  (at level 61, right associativity) : m_scope.
Local Open Scope m_scope.

(** ** The services *)

Module Service.

Record PageResult : Type := mkPage { base64 : option jsstring }.

Record File : Type := mkFile {
  mimetype : jsstring;
  originalname : jsstring;
  buffer : Buffer
}.

(** A library call ends in one of: an exception ([None]), or a result
    whose text field may be missing ([Some None]). *)
Definition LibText := option (option jsstring).

(** [Tesseract.recognize]: the promise resolves, to a result whose text may
    be missing, or it is rejected with some value.  The value matters: the
    handler of [recognizeImageBuffer] reads its [message]. *)
Inductive OcrOutcome : Type :=
| Resolved (text : option jsstring)
| Rejected (error : Exception).

(** The collaborators outside this repository.  A library field is [None]
    when [require] cannot resolve it. *)
Record Env : Type := mkEnv {
  pdfParseLib : option (Buffer -> LibText);
  pdf2picLib : option (Buffer -> option (option (list (option PageResult))));
  tesseractLib : option (Buffer -> jsstring -> OcrOutcome);
  mammothLib : option (Buffer -> LibText);
  bufferFromBase64 : jsstring -> Buffer;
  slugify : jsstring -> jsstring;
  prismaFindFirst : jsstring -> jsstring -> option bool;
  prismaCreate : ResumeRow -> option ResumeRow
}.

Section WithEnv.

Variable env : Env.

(** [OcrService.recognizeImageBuffer(buffer, lang = "eng")].  A missing
    tesseract.js gives the empty string.  Whatever else fails inside is
    caught; the handler logs [(error as Error).message] and returns the
    empty string, and reading that property throws a [TypeError] when the
    caught value is null or undefined. *)
Definition recognizeImageBuffer (b : Buffer) : M jsstring :=
  emit (EvRecognize b) ;;;
  tryCatch
    (match tesseractLib env with
     | None => ret []
     | Some recognize =>
         match recognize b (u "eng") with
         | Resolved data_text => ret (nullish data_text [])
         | Rejected error => throw error
         end
     end)
    (fun error =>
       match error with
       | NullishValue => throw TypeError
       | _ => ret []
       end).

(** [result && result.base64] *)
Definition pageImage (result : option PageResult) : option jsstring :=
  match result with
  | Some r =>
      match base64 r with
      | Some b => if truthy b then Some b else None
      | None => None
      end
  | None => None
  end.

(** The loop of [ocrPdfBuffer] over the converted pages. *)
Fixpoint ocrPages (results : list (option PageResult)) (extractedText : jsstring)
  : M jsstring :=
  match results with
  | [] => ret extractedText
  | result :: rest =>
      match pageImage result with
      | Some b =>
          let imageBuffer := bufferFromBase64 env b in
          extractedText' <-
            tryCatch
              (pageText <- recognizeImageBuffer imageBuffer ;;
               if truthy pageText
               then ret (extractedText ++ pageText ++ [LF])
               else ret extractedText)
              (fun _ => ret extractedText) ;;
          ocrPages rest extractedText'
      | None => ocrPages rest extractedText
      end
  end.

(** [ResumeService.ocrPdfBuffer] *)
Definition ocrPdfBuffer (b : Buffer) : M jsstring :=
  emit (EvOcrPdfBuffer b) ;;;
  tryCatch
    (match pdf2picLib env with
     | None => throw (LibraryError "pdf2pic")
     | Some bulk =>
         emit (EvRasterize b) ;;;
         match bulk b with
         | None => throw (LibraryError "pdf2pic")
         | Some results =>
             match results with
             | None => ret []
             | Some [] => ret []
             | Some pages =>
                 extractedText <- ocrPages pages [] ;;
                 ret (trim extractedText)
             end
         end
     end)
    (fun _ => ret []).

(** The pdf-parse step of the PDF branch: the library may be missing, and
    its failure is logged and leaves the text empty. *)
Definition pdfNativeText (b : Buffer) : M jsstring :=
  match pdfParseLib env with
  | Some pdfParseFunc =>
      tryCatch
        (emit (EvPdfParse b) ;;;
         match pdfParseFunc b with
         | Some result_text => ret (nullish result_text [])
         | None => throw (LibraryError "pdf-parse")
         end)
        (fun _ => ret [])
  | None => ret []
  end.

(** The trigger [!text || text.trim().length < 20]. *)
Definition needsOcrFallback (text : jsstring) : bool :=
  negb (truthy text) || (List.length (trim text) <? 20).

(** The PDF branch. *)
Definition extractPdf (b : Buffer) : M jsstring :=
  text <- pdfNativeText b ;;
  if needsOcrFallback text then
    tryCatch
      (ocrText <- ocrPdfBuffer b ;;
       if truthy ocrText then ret ocrText else ret text)
      (fun _ => ret text)
  else ret text.

(** The Word branch. *)
Definition extractWord (b : Buffer) : M jsstring :=
  tryCatch
    (match mammothLib env with
     | None => throw (LibraryError "mammoth")
     | Some extractRawText =>
         emit (EvMammoth b) ;;;
         match extractRawText b with
         | Some result_value => ret (nullish result_value [])
         | None => throw (LibraryError "mammoth")
         end
     end)
    (fun _ => throw MalformedDocument).

(** The image branch. *)
Definition extractImage (b : Buffer) : M jsstring :=
  tryCatch
    (ocrText <- recognizeImageBuffer b ;;
     ret (nullish (Some ocrText) []))
    (fun _ => throw ImageOcrFailed).

(** The dispatch on the lower-cased MIME type (lines 67-144 of
    resume.service.ts). *)
Definition dispatch (file : File) : M jsstring :=
  let mime := toLowerCase (mimetype file) in
  if includes (u "pdf") mime then extractPdf (buffer file)
  else if includes (u "word") mime || includes (u "officedocument") mime
  then extractWord (buffer file)
  else if startsWith (u "image/") mime then extractImage (buffer file)
  else throw UnsupportedFormat.

(** The check [!text || !text.trim()] after the dispatch. *)
Definition isBlank (text : jsstring) : bool :=
  negb (truthy text) || negb (truthy (trim text)).

(** The extraction stage of [importFromFile]: dispatch, then the check
    for extractable text (lines 67-149). *)
Definition extractText (file : File) : M jsstring :=
  text <- dispatch file ;;
  if isBlank text then throw NoExtractableText else ret text.

(** [/\.[^/.]+$/] *)
Definition extensionRe : regex :=
  seqs [ Chr (isChar 46%N);
         plus (Chr (fun c => negb (cu_eqb c 47%N || cu_eqb c 46%N)));
         Eol ].

(** [file.originalname.replace(/\.[^/.]+$/, "")] *)
Definition stripExtension (s : jsstring) : jsstring :=
  match exec extensionRe s with
  | Some m => firstn (r_index m) s ++ skipn (r_end m) s
  | None => s
  end.

(** The loop that looks for a free slug.  It leaves when [findFirst] finds
    nothing or throws; [fuel] bounds the number of iterations. *)
Fixpoint uniqueTitle (fuel : nat) (userId baseTitle title slug : jsstring)
    (counter : nat) : M (jsstring * jsstring) :=
  match fuel with
  | 0 => diverge
  | S fuel' =>
      emit (EvFindFirst userId slug) ;;;
      match prismaFindFirst env userId slug with
      | None => ret (title, slug)
      | Some false => ret (title, slug)
      | Some true =>
          let title' := baseTitle ++ u " (" ++ decimal counter ++ u ")" in
          uniqueTitle fuel' userId baseTitle title' (slugify env title') (S counter)
      end
  end.

(** The persistence stage of [importFromFile] (lines 151-200).  The
    random title drawn there is never used and is left out. *)
Definition storeResume (fuel : nat) (userId : jsstring) (file : File)
    (text : jsstring) : M ResumeRow :=
  let summary :=
    nullish (Some (slice0 1200 (firstParagraph (trim text))))
            (u "Imported resume") in
  let baseTitle := stripExtension (originalname file) in
  ts <- uniqueTitle fuel userId baseTitle baseTitle (slugify env baseTitle) 1 ;;
  let row := mkRow userId "private" summary (fst ts) (snd ts) in
  emit (EvCreate row) ;;;
  match prismaCreate env row with
  | Some resume => ret resume
  | None => throw (LibraryError "prisma")
  end.

(** [ResumeService.importFromFile] *)
Definition importFromFile (fuel : nat) (userId : jsstring) (file : File)
  : M ResumeRow :=
  text <- extractText file ;;
  storeResume fuel userId file text.

(** What the [import-file] endpoint answers. *)
Inductive ImportFileResult : Type :=
| TextAndParsed (text : jsstring) (parsed : ParsedResume)
| StoredResume (resume : ResumeRow).

(** [ParserService.parse], with the call recorded. *)
Definition parserService_parse (text : jsstring) : M ParsedResume :=
  emit (EvParse text) ;;; ret (parse text).

(** [ResumeController.importFile] *)
Definition importFile (fuel : nat) (userId : jsstring) (file : option File)
  : M ImportFileResult :=
  tryCatch
    (match file with
     | None => throw NoFileProvided
     | Some f =>
         let mime := toLowerCase (mimetype f) in
         if startsWith (u "image/") mime then
           text <- recognizeImageBuffer (buffer f) ;;
           parsed <- parserService_parse text ;;
           ret (TextAndParsed text parsed)
         else
           resume <- importFromFile fuel userId f ;;
           ret (StoredResume resume)
     end)
    (fun error => throw (InternalServerErrorException error)).

End WithEnv.

End Service.
Import Service.

(** ** The specification's wording, for comparison with the code *)

Module Wording.

(** The pieces of a line between runs of white space. *)
Fixpoint wsTokensAux (s cur : jsstring) : list jsstring :=
  match s with
  | [] => match cur with [] => [] | _ :: _ => [rev cur] end
  | c :: r =>
      if isWs c then
        match cur with
        | [] => wsTokensAux r []
        | _ :: _ => rev cur :: wsTokensAux r []
        end
      else wsTokensAux r (c :: cur)
  end.
Definition wsTokens (s : jsstring) : list jsstring := wsTokensAux s [].

(** "letters, spaces, and the characters ,.'-" *)
Definition nameCharacter (c : code_unit) : bool :=
  isAsciiLetter c || cu_eqb c 32%N
  || cu_eqb c 44%N || cu_eqb c 46%N || cu_eqb c 39%N || cu_eqb c 45%N.

(** "consists solely of letters, spaces, and ,.'-, has length 2-80, and
    has at most 5 whitespace-separated tokens" *)
Definition nameRule (line : jsstring) : bool :=
  forallb nameCharacter line
  && (2 <=? List.length line) && (List.length line <=? 80)
  && (List.length (wsTokens line) <=? 5).

(** "containing skill (case-insensitive)" *)
Definition containsSkill (line : jsstring) : bool :=
  includes (u "skill") (toLowerCase line).

(** "':', '-', or en/em-dash" *)
Definition claimedHeadSep (c : code_unit) : bool :=
  cu_eqb c 58%N || cu_eqb c 45%N || cu_eqb c EN_DASH || cu_eqb c EM_DASH.

(** "everything after the first ':', '-', or en/em-dash" *)
Fixpoint afterFirst (p : code_unit -> bool) (s : jsstring) : jsstring :=
  match s with
  | [] => []
  | c :: r => if p c then r else afterFirst p r
  end.

(** "splits it on ';', ',', '|', bullet or middle dot, trims each token and
    drops empty ones" *)
Definition claimedSkillsOfLine (line : jsstring) : list jsstring :=
  filter truthy (map trim (splitOn isSkillsItemSep (afterFirst claimedHeadSep line))).

(** The skills computation as the claim words it. *)
Definition claimedSkills (text : jsstring) : list jsstring :=
  match find containsSkill (firstn 30 (linesOf text)) with
  | Some line => claimedSkillsOfLine line
  | None => []
  end.

(** "empty or whitespace-only" *)
Definition whitespaceOnly (text : jsstring) : bool := forallb isWs text.

(** The Word-document MIME types: .doc and .docx. *)
Definition wordMimeTypes : list jsstring :=
  [ u "application/msword";
    u "application/vnd.openxmlformats-officedocument.wordprocessingml.document" ].

(** "application/pdf, the Word-document variants, and image/*" *)
Definition declaredSupported (mime : jsstring) : bool :=
  str_eqb mime (u "application/pdf")
  || existsb (str_eqb mime) wordMimeTypes
  || startsWith (u "image/") mime.

(** "the plain text produced by the extraction stage is passed to the
    parser, and the ingestion result contains the resulting ParsedResume
    built from that text" *)
Definition deliversParsed (m : M ImportFileResult) : Prop :=
  exists text,
    In (EvParse text) (trace m) /\
    outcome m = Returned (TextAndParsed text (parse text)).

(** The calls that make up the OCR fallback. *)
Definition isOcrEvent (e : Event) : bool :=
  match e with
  | EvOcrPdfBuffer _ | EvRasterize _ | EvRecognize _ => true
  | _ => false
  end.

Definition isParseEvent (e : Event) : bool :=
  match e with
  | EvParse _ => true
  | _ => false
  end.

(** The text OCR gives for page [i] in the page-order property. *)
Definition pageText (i : nat) : jsstring := u "page" ++ decimal i.

(** The MIME tests of the dispatch, on the lower-cased type. *)
Definition isPdfMime (mime : jsstring) : bool :=
  includes (u "pdf") (toLowerCase mime).
Definition isWordMime (mime : jsstring) : bool :=
  includes (u "word") (toLowerCase mime)
  || includes (u "officedocument") (toLowerCase mime).
Definition isImageMime (mime : jsstring) : bool :=
  startsWith (u "image/") (toLowerCase mime).

End Wording.
Import Wording.

(** ** Predicates used to state the properties *)

Module Shapes.

(** The first code unit of a string, when there is one, is not white space. *)
Definition headOk (s : jsstring) : bool :=
  match s with
  | [] => true
  | c :: _ => negb (isWs c)
  end.

(** The last code unit of a string, when there is one, is not white space. *)
Fixpoint lastOk (s : jsstring) : bool :=
  match s with
  | [] => true
  | [c] => negb (isWs c)
  | _ :: r => lastOk r
  end.

(** [m !== null] *)
Definition isSome {A} (o : option A) : bool :=
  match o with Some _ => true | None => false end.

(** A case-insensitive literal is a prefix test. *)
Fixpoint prefixCI (pat s : jsstring) : bool :=
  match pat, s with
  | [], _ => true
  | x :: pat', c :: s' => isCI x c && prefixCI pat' s'
  | _ :: _, [] => false
  end.

(** A later state of the same match: further right in the same input. *)
Definition advances (st st' : mstate) : Prop :=
  m_pos st <= m_pos st' /\
  m_pos st' + List.length (m_rest st') = m_pos st + List.length (m_rest st).

(** A matcher that calls its continuation on later states only. *)
Definition forwardOnly (body : mstate -> cont -> option mstate) : Prop :=
  forall st k1 k2,
    (forall st', advances st st' -> k1 st' = k2 st') -> body st k1 = body st k2.

(** The calls of the native PDF extractor. *)
Definition isPdfParseEvent (e : Event) : bool :=
  match e with EvPdfParse _ => true | _ => false end.

End Shapes.
Import Shapes.

(** ** Sample inputs and environments *)

Module Samples.

Definition nl (a b : jsstring) : jsstring := a ++ [LF] ++ b.

Definition johnSmith : jsstring :=
  nl (u "John Smith") (u "Software Engineer").

Definition johnSmithResume : jsstring :=
  nl (u "JOHN SMITH - RESUME") (u "...").

Definition sectionsText : jsstring :=
  nl (u "Experience")
    (nl (u "Senior Engineer - Acme Corp (2019-2022)")
       (nl (u "Education") (u "BSc Computer Science - MIT (2015)"))).

Definition masterLine : jsstring := u "Master of Science - MIT (2015)".

Definition skillsHyphenText : jsstring := u "Skills: C, front-end".

Definition nativeLong : jsstring :=
  nl (u "Jane Doe") (nl (u "") (u "Engineer with ten years of experience")).

Definition samplePdf : File :=
  mkFile (u "application/pdf") (u "cv.pdf") [37; 80; 68; 70]%N.
Definition sampleDocx : File :=
  mkFile (u "application/vnd.openxmlformats-officedocument.wordprocessingml.document")
         (u "cv.docx") [80; 75]%N.
Definition sampleXlsx : File :=
  mkFile (u "application/vnd.openxmlformats-officedocument.spreadsheetml.sheet")
         (u "sheet.xlsx") [80; 75]%N.
Definition sampleImage : File :=
  mkFile (u "image/png") (u "scan.png") [137; 80; 78; 71]%N.
Definition sampleText : File :=
  mkFile (u "text/plain") (u "cv.txt") [72; 105]%N.

(** pdf-parse finds [native]; OCR reads an image as the text its bytes
    spell; pdf2pic gives [pages]; mammoth fails; the database is empty. *)
Definition sampleEnv (native : jsstring) (pages : list (option PageResult)) : Env :=
  mkEnv (Some (fun _ => Some (Some native)))
        (Some (fun _ => Some (Some pages)))
        (Some (fun b _ => Resolved (Some b)))
        (Some (fun _ => None))
        (fun b => b)
        (fun s => toLowerCase s)
        (fun _ _ => Some false)
        (fun row => Some row).

(** tesseract.js rejects with [undefined]; nothing else is installed. *)
Definition rejectingOcrEnv : Env :=
  mkEnv None None (Some (fun _ _ => Rejected NullishValue)) None
        (fun b => b) (fun s => toLowerCase s)
        (fun _ _ => Some false) (fun row => Some row).

Definition twoPages : list (option PageResult) :=
  [ Some (mkPage (Some (u "page0"))); Some (mkPage (Some (u "page1"))) ].

End Samples.
Import Samples.

(** ** What a pattern describes

    A relational reading of the patterns, against which the matcher is
    checked: [Matches r st st'] when [r] can take the match from [st] to
    [st']. *)

Module RegexSemantics.

Inductive Iter (R : mstate -> mstate -> Prop) : nat -> mstate -> mstate -> Prop :=
| Iter_0 st : Iter R 0 st st
| Iter_S n st st1 st2 : R st st1 -> Iter R n st1 st2 -> Iter R (S n) st st2.

Definition within (hi : option nat) (n : nat) : Prop :=
  match hi with
  | Some h => n <= h
  | None => True
  end.

#[warnings="-register-all"]
Inductive Matches : regex -> mstate -> mstate -> Prop :=
| M_Eps st : Matches Eps st st
| M_Chr p st c t :
    m_rest st = c :: t -> p c = true ->
    Matches (Chr p) st (MState (S (m_pos st)) t (m_caps st))
| M_Bol st : m_pos st = 0 -> Matches Bol st st
| M_Eol st : m_rest st = [] -> Matches Eol st st
| M_Seq a b st st1 st2 :
    Matches a st st1 -> Matches b st1 st2 -> Matches (Seq a b) st st2
| M_AltL a b st st1 : Matches a st st1 -> Matches (Alt a b) st st1
| M_AltR a b st st1 : Matches b st st1 -> Matches (Alt a b) st st1
| M_Rep a lo hi greedy n st st1 :
    Iter (Matches a) n st st1 -> lo <= n -> within hi n ->
    Matches (Rep a lo hi greedy) st st1
| M_Group i a st st1 :
    Matches a st st1 ->
    Matches (Group i a) st
      (MState (m_pos st1) (m_rest st1)
         ((i, firstn (m_pos st1 - m_pos st) (m_rest st)) :: m_caps st)).

(** The match went from [st] to [st'] by reading the word [w]. *)
Definition reads (st : mstate) (w : jsstring) (st' : mstate) : Prop :=
  m_rest st = w ++ m_rest st' /\ m_pos st' = m_pos st + List.length w.

(** [s] occurs in [text] as a contiguous part. *)
Definition partOf (s text : jsstring) : Prop :=
  exists before after, text = before ++ s ++ after.

End RegexSemantics.
Import RegexSemantics.

(** ** Further endpoints of the controller and methods of the service *)

Module Endpoints.

Section WithEnv.

Variable env : Env.

(** [ResumeController.ocr]: no [try] around the body. *)
Definition ocr (file : option File) : M jsstring :=
  match file with
  | None => throw NoFileProvided
  | Some f =>
      text <- recognizeImageBuffer env (buffer f) ;;
      ret text
  end.

Definition NoTextProvided : Exception :=
  BadRequestException "No text provided".

(** [ResumeController.parse]: the body may be missing, and so may its
    [text]; the test is [!body || !body.text]. *)
Definition parseEndpoint (body : option (option jsstring)) : M ParsedResume :=
  match body with
  | None => throw NoTextProvided
  | Some None => throw NoTextProvided
  | Some (Some text) =>
      if truthy text then parserService_parse text
      else throw NoTextProvided
  end.

(** The buffers handed to OCR by the loop of [ocrPdfBuffer]: one for each
    page that carries image data. *)
Definition pageBuffers (results : list (option PageResult)) : list Buffer :=
  flat_map (fun result =>
              match pageImage result with
              | Some b => [bufferFromBase64 env b]
              | None => []
              end) results.

End WithEnv.

(** The title tried by the slug loop after [k] collisions. *)
Definition candidateTitle (baseTitle : jsstring) (k : nat) : jsstring :=
  match k with
  | 0 => baseTitle
  | S _ => baseTitle ++ u " (" ++ decimal k ++ u ")"
  end.

Definition isDatabaseEvent (e : Event) : bool :=
  match e with
  | EvFindFirst _ _ | EvCreate _ => true
  | _ => false
  end.

Definition isCreateEvent (e : Event) : bool :=
  match e with
  | EvCreate _ => true
  | _ => false
  end.

(** The characters at which a skills line is cut, in either split. *)
Definition isSkillsCut (c : code_unit) : bool :=
  cu_eqb c 58%N || cu_eqb c 45%N || cu_eqb c EN_DASH
  || isSkillsItemSep c.

Definition isLF (c : code_unit) : bool := cu_eqb c LF.

(** The calls made by the extraction stage. *)
Definition isExtractionEvent (e : Event) : bool :=
  match e with
  | EvPdfParse _ | EvOcrPdfBuffer _ | EvRasterize _ | EvRecognize _
  | EvMammoth _ => true
  | _ => false
  end.

(** The text that [recognizeImageBuffer] returns for a buffer. *)
Definition recognizedText (env : Env) (b : Buffer) : jsstring :=
  match outcome (recognizeImageBuffer env b) with
  | Returned v => v
  | _ => []
  end.

(** The class [[^/.]] of the extension pattern. *)
Definition isExtensionChar (c : code_unit) : bool :=
  negb (cu_eqb c 47%N || cu_eqb c 46%N).

(** Five conversion results: a page, a hole, a page that OCR reads as a
    space, a page without image data, and a last page. *)
Definition mixedPages : list (option PageResult) :=
  [ Some (mkPage (Some (u "a"))); None; Some (mkPage (Some (u " ")));
    Some (mkPage (Some [])); Some (mkPage (Some (u "b"))) ].

End Endpoints.
Import Endpoints.

(** ** [ResumeService.update]

    The method has its own error handling: whatever is thrown inside is
    caught, and only an error whose [code] is "P2025" is thrown again. *)

Module Update.

Inductive Failure : Type :=
| PrismaKnownRequestError (code : string)
| OtherError (code : option string)
| BadRequest (message : string)
| InternalServerError (cause : Failure).

(** [error.code] *)
Definition codeOf (e : Failure) : option string :=
  match e with
  | PrismaKnownRequestError c => Some c
  | OtherError c => c
  | BadRequest _ => None
  | InternalServerError _ => None
  end.

Inductive Call : Type :=
| CallFindUnique (id : jsstring)
| CallUpdate (userId id : jsstring).

Section WithPrisma.

(** The updated record and the payload are kept abstract. *)
Variables Resume UpdateResumeDto : Type.
(** [prisma.resume.findUniqueOrThrow({ where: { id }, select: { locked } })] *)
Variable findLocked : jsstring -> Failure + bool.
(** [prisma.resume.update] *)
Variable prismaUpdate : jsstring -> jsstring -> UpdateResumeDto -> Failure + Resume.
(** [ErrorMessage.ResumeLocked] *)
Variable ResumeLocked : string.

(** The body of the [try]. *)
Definition updateBody (userId id : jsstring) (dto : UpdateResumeDto)
  : list Call * (Failure + Resume) :=
  match findLocked id with
  | inl e => ([CallFindUnique id], inl e)
  | inr locked =>
      if locked then ([CallFindUnique id], inl (BadRequest ResumeLocked))
      else ([CallFindUnique id; CallUpdate userId id], prismaUpdate userId id dto)
  end.

(** [ResumeService.update]: [inr None] is the [undefined] returned when the
    handler lets the error go. *)
Definition update (userId id : jsstring) (dto : UpdateResumeDto)
  : list Call * (Failure + option Resume) :=
  match updateBody userId id dto with
  | (calls, inr resume) => (calls, inr (Some resume))
  | (calls, inl error) =>
      match codeOf error with
      | Some code =>
          if String.eqb code "P2025"
          then (calls, inl (InternalServerError error))
          else (calls, inr None)
      | None => (calls, inr None)
      end
  end.

End WithPrisma.

End Update.

(** ** The shape of the entries the sectioning loop builds *)

Module EntryShape.

(** The string begins with four digits. *)
Definition startsWithYear (s : jsstring) : bool :=
  match s with
  | a :: b :: c :: d :: _ => isDigit a && isDigit b && isDigit c && isDigit d
  | _ => false
  end.

Definition trimmed (s : jsstring) : Prop := trim s = s.

Definition experienceShape (e : ExperienceEntry) : Prop :=
  exists t c d,
    e = mkExperience (Some t) (Some c) (Some d) None /\
    trimmed t /\ trimmed c /\ trimmed d /\ startsWithYear d = true.

Definition educationShape (e : EducationEntry) : Prop :=
  exists g i d,
    e = mkEducation (Some g) (Some i) (Some d) /\
    trimmed g /\ trimmed i /\ trimmed d /\ startsWithYear d = true.

(** The classes of the e-mail pattern. *)
Definition isEmailLocalChar (c : code_unit) : bool :=
  isAlnum c || oneOf (u "._%+-") c.
Definition isEmailDomainChar (c : code_unit) : bool :=
  isAlnum c || oneOf (u ".-") c.

(** local-part, at sign, domain, dot, top-level domain *)
Definition emailShape (e : jsstring) : Prop :=
  exists l d t,
    e = l ++ [64%N] ++ d ++ [46%N] ++ t /\
    l <> [] /\ forallb isEmailLocalChar l = true /\
    d <> [] /\ forallb isEmailDomainChar d = true /\
    2 <= List.length t /\ forallb isAsciiLetter t = true.

(** an optional plus sign and 7 to 15 digits *)
Definition phoneShape (p : jsstring) : Prop :=
  exists sign digits,
    p = sign ++ digits /\
    (sign = [] \/ sign = [43%N]) /\
    forallb isDigit digits = true /\
    7 <= List.length digits <= 15.

End EntryShape.
Import EntryShape.

(** ** Facts about strings *)

Section StringFacts.

Lemma dropWhile_head p s c r : dropWhile p s = c :: r -> p c = false.
Proof.
  induction s as [|a s IH]; simpl; [discriminate|].
  destruct (p a) eqn:E; [exact IH|].
  intros H; injection H as -> _; exact E.
Qed.

Lemma dropWhile_split p s :
  exists pre, s = pre ++ dropWhile p s /\ forallb p pre = true.
Proof.
  induction s as [|a s [pre [H1 H2]]]; simpl.
  - exists []; split; reflexivity.
  - destruct (p a) eqn:E.
    + exists (a :: pre); simpl; rewrite E, H2; split; [f_equal; exact H1|reflexivity].
    + exists []; split; reflexivity.
Qed.

Lemma dropWhile_fixed p c r : p c = false -> dropWhile p (c :: r) = c :: r.
Proof. intros H; simpl; rewrite H; reflexivity. Qed.

Lemma dropWhile_nil_iff p s : dropWhile p s = [] <-> forallb p s = true.
Proof.
  induction s as [|a s IH]; simpl; [tauto|].
  destruct (p a); simpl; [exact IH|].
  split; discriminate.
Qed.

Lemma dropWhile_idem p s : dropWhile p (dropWhile p s) = dropWhile p s.
Proof.
  destruct (dropWhile p s) as [|c r] eqn:E; [reflexivity|].
  apply dropWhile_fixed; exact (dropWhile_head _ _ _ _ E).
Qed.

Lemma lastOk_snoc a c : lastOk (a ++ [c]) = negb (isWs c).
Proof.
  induction a as [|x a IH]; [reflexivity|].
  simpl app. destruct (a ++ [c]) eqn:E.
  - destruct a; discriminate.
  - simpl in *. exact IH.
Qed.

Lemma lastOk_app a b : b <> [] -> lastOk (a ++ b) = lastOk b.
Proof.
  intros Hb; induction a as [|x a IH]; [reflexivity|].
  simpl app. destruct (a ++ b) eqn:E.
  - destruct a, b; try discriminate; congruence.
  - simpl in *. exact IH.
Qed.

Lemma lastOk_rev_head s : s <> [] -> lastOk s = true ->
  exists c r, rev s = c :: r /\ isWs c = false.
Proof.
  intros Hs Hl.
  destruct (rev s) as [|c r] eqn:E.
  - apply (f_equal (@rev _)) in E; rewrite rev_involutive in E; contradiction.
  - exists c, r; split; [reflexivity|].
    apply (f_equal (@rev _)) in E; rewrite rev_involutive in E; simpl in E.
    subst s. rewrite lastOk_snoc in Hl. destruct (isWs c); [discriminate|reflexivity].
Qed.

Lemma trimEnd_prefix s : exists suf, s = trimEnd s ++ suf.
Proof.
  unfold trimEnd.
  destruct (dropWhile_split isWs (rev s)) as [pre [H _]].
  exists (rev pre).
  rewrite <- rev_app_distr, <- H, rev_involutive; reflexivity.
Qed.

Lemma trimEnd_lastOk s : lastOk (trimEnd s) = true.
Proof.
  unfold trimEnd.
  destruct (dropWhile isWs (rev s)) as [|c r] eqn:E; [reflexivity|].
  simpl. rewrite lastOk_snoc, (dropWhile_head _ _ _ _ E); reflexivity.
Qed.

Lemma trim_headOk s : headOk (trim s) = true.
Proof.
  unfold trim, trimStart.
  destruct (trimEnd_prefix (dropWhile isWs s)) as [suf H].
  destruct (trimEnd (dropWhile isWs s)) as [|c r] eqn:E; [reflexivity|].
  simpl. simpl in H. rewrite (dropWhile_head _ _ _ _ H); reflexivity.
Qed.

Lemma trim_lastOk s : lastOk (trim s) = true.
Proof. apply trimEnd_lastOk. Qed.

(** A string whose two ends are not white space is its own [trim]. *)
Lemma trim_fixed s : headOk s = true -> lastOk s = true -> trim s = s.
Proof.
  intros Hh Hl. destruct s as [|c r]; [reflexivity|].
  unfold trim, trimStart, trimEnd.
  simpl in Hh. rewrite dropWhile_fixed by (destruct (isWs c); [discriminate|reflexivity]).
  destruct (lastOk_rev_head (c :: r)) as [d [t [E Hd]]]; [discriminate|exact Hl|].
  rewrite E, (dropWhile_fixed _ _ _ Hd), <- E. apply rev_involutive.
Qed.

Lemma trim_idem s : trim (trim s) = trim s.
Proof. apply trim_fixed; [apply trim_headOk|apply trim_lastOk]. Qed.

Lemma forallb_rev (p : code_unit -> bool) s : forallb p (rev s) = forallb p s.
Proof.
  induction s as [|a s IH]; [reflexivity|].
  simpl. rewrite forallb_app, IH. simpl. rewrite andb_true_r. apply andb_comm.
Qed.

(** [trim] leaves nothing exactly when every code unit is white space. *)
Lemma trim_nil_iff s : trim s = [] <-> whitespaceOnly s = true.
Proof.
  unfold trim, trimStart, trimEnd, whitespaceOnly.
  split.
  - intros H. apply (f_equal (@rev _)) in H. rewrite rev_involutive in H. simpl in H.
    apply dropWhile_nil_iff in H. rewrite forallb_rev in H.
    destruct (dropWhile isWs s) as [|c r] eqn:E.
    + apply dropWhile_nil_iff; exact E.
    + simpl in H. rewrite (dropWhile_head _ _ _ _ E) in H. discriminate.
  - intros H. apply dropWhile_nil_iff in H. rewrite H. reflexivity.
Qed.

Lemma truthy_false_iff s : truthy s = false <-> s = [].
Proof. destruct s; simpl; split; congruence. Qed.

Lemma isBlank_iff text : isBlank text = true <-> whitespaceOnly text = true.
Proof.
  unfold isBlank. rewrite <- trim_nil_iff.
  destruct text as [|c r]; simpl; [split; reflexivity|].
  destruct (trim (c :: r)); simpl; split; congruence.
Qed.

Lemma filter_trim_elements (ls : list jsstring) s :
  In s (filter truthy (map trim ls)) -> s <> [] /\ trim s = s.
Proof.
  intros H. apply filter_In in H. destruct H as [H1 H2].
  apply in_map_iff in H1. destruct H1 as [x [<- _]].
  split; [|apply trim_idem].
  intros E. rewrite E in H2. discriminate.
Qed.

End StringFacts.

(** ** Facts about the matcher *)

Section RegexFacts.

Lemma advances_refl st : advances st st.
Proof. split; reflexivity. Qed.

Lemma advances_trans a b c : advances a b -> advances b c -> advances a c.
Proof. unfold advances. intros [H1 H2] [H3 H4]. split; lia. Qed.

Lemma rep_loop_ext body lo hi greedy k1 k2 st0 :
  forwardOnly body ->
  (forall st', advances st0 st' -> k1 st' = k2 st') ->
  forall fuel count st,
    advances st0 st ->
    rep_loop body lo hi greedy k1 fuel count st
    = rep_loop body lo hi greedy k2 fuel count st.
Proof.
  intros Hb Hk. induction fuel as [|fuel IH]; intros count st Hst; [reflexivity|].
  cbn [rep_loop].
  assert (E : body st (fun st1 =>
                 if (lo <=? count) && (m_pos st1 =? m_pos st) then None
                 else rep_loop body lo hi greedy k1 fuel (S count) st1)
              = body st (fun st1 =>
                 if (lo <=? count) && (m_pos st1 =? m_pos st) then None
                 else rep_loop body lo hi greedy k2 fuel (S count) st1)).
  { apply Hb. intros st' Hst'.
    destruct ((lo <=? count) && (m_pos st' =? m_pos st)); [reflexivity|].
    apply IH. exact (advances_trans _ _ _ Hst Hst'). }
  rewrite E, (Hk st Hst). reflexivity.
Qed.

(** Every pattern calls its continuation on later states only. *)
Lemma rmatch_forwardOnly r : forwardOnly (rmatch r).
Proof.
  induction r as [|p| | |a IHa b IHb|a IHa b IHb|a IHa lo hi greedy|i a IHa];
    intros st k1 k2 Hk; cbn [rmatch].
  - apply Hk, advances_refl.
  - destruct (m_rest st) as [|c t] eqn:E; [reflexivity|].
    destruct (p c); [|reflexivity].
    apply Hk. unfold advances. cbn [m_pos m_rest]. rewrite E. simpl. lia.
  - destruct (m_pos st =? 0); [apply Hk, advances_refl|reflexivity].
  - destruct (m_rest st); [apply Hk, advances_refl|reflexivity].
  - apply IHa. intros st1 H1. apply IHb. intros st2 H2.
    apply Hk. exact (advances_trans _ _ _ H1 H2).
  - rewrite (IHa st k1 k2 Hk), (IHb st k1 k2 Hk). reflexivity.
  - apply (rep_loop_ext (rmatch a) lo hi greedy k1 k2 st IHa Hk).
    apply advances_refl.
  - apply IHa. intros st1 H1. apply Hk. exact H1.
Qed.

(** The bound on the repetitions is never the reason for a failure: past
    [lo - count] plus the length of the remaining input, more fuel changes
    nothing. *)
Lemma rep_loop_fuel body lo hi greedy k :
  forwardOnly body ->
  forall fuel1 fuel2 count st,
    (lo - count) + List.length (m_rest st) < fuel1 ->
    (lo - count) + List.length (m_rest st) < fuel2 ->
    rep_loop body lo hi greedy k fuel1 count st
    = rep_loop body lo hi greedy k fuel2 count st.
Proof.
  intros Hb. induction fuel1 as [|fuel1 IH]; intros fuel2 count st H1 H2; [lia|].
  destruct fuel2 as [|fuel2]; [lia|].
  cbn [rep_loop].
  assert (E : body st (fun st1 =>
                 if (lo <=? count) && (m_pos st1 =? m_pos st) then None
                 else rep_loop body lo hi greedy k fuel1 (S count) st1)
              = body st (fun st1 =>
                 if (lo <=? count) && (m_pos st1 =? m_pos st) then None
                 else rep_loop body lo hi greedy k fuel2 (S count) st1)).
  { apply Hb. intros st' [Hp Hl].
    destruct (lo <=? count) eqn:E1; destruct (m_pos st' =? m_pos st) eqn:E2;
      cbn [andb]; try reflexivity;
      try apply Nat.leb_le in E1; try apply Nat.leb_gt in E1;
      try apply Nat.eqb_neq in E2; try apply Nat.eqb_eq in E2;
      apply IH; lia. }
  rewrite E. reflexivity.
Qed.

Lemma rmatch_rep_fuel a lo hi greedy st k fuel :
  lo + List.length (m_rest st) < fuel ->
  rmatch (Rep a lo hi greedy) st k
  = rep_loop (rmatch a) lo hi greedy k fuel 0 st.
Proof.
  intros H. cbn [rmatch].
  apply rep_loop_fuel; [apply rmatch_forwardOnly|lia|lia].
Qed.

(** A pattern that starts with [^] matches at index 0 only. *)
Lemma searchFrom_bol_later r pos rest :
  searchFrom (Seq Bol r) (S pos) rest = None.
Proof.
  revert pos; induction rest as [|c rest IH]; intros pos; simpl; [reflexivity|].
  apply IH.
Qed.

Lemma test_bol r s :
  test (Seq Bol r) s =
  match rmatch r (MState 0 s []) (fun st => Some st) with
  | Some _ => true
  | None => false
  end.
Proof.
  unfold test, exec.
  destruct s as [|c s]; simpl.
  - destruct (rmatch r _ _); reflexivity.
  - destruct (rmatch r _ _); [reflexivity|].
    rewrite searchFrom_bol_later; reflexivity.
Qed.

(** [[class]{lo,hi}$], greedy, from a state where [count] repetitions are
    done: it succeeds exactly when the rest of the input is in the class
    and the total count ends within the bounds. *)
Lemma rep_class_eol p lo hi :
  forall rest fuel count pos caps,
    List.length rest < fuel -> count <= hi ->
    isSome (rep_loop (rmatch (Chr p)) lo (Some hi) true
              (fun st1 => rmatch Eol st1 (fun st => Some st))
              fuel count (MState pos rest caps))
    = forallb p rest && (lo <=? count + List.length rest)
      && (count + List.length rest <=? hi).
Proof.
  induction rest as [|c rest IH]; intros fuel count pos caps Hf Hc;
    (destruct fuel as [|fuel]; [simpl in Hf; lia|]);
    cbn [rep_loop rmatch m_rest m_pos m_caps reached forallb List.length].
  - rewrite Nat.add_0_r.
    destruct (hi <=? count) eqn:E1; destruct (count <? lo) eqn:E2;
      (apply Nat.ltb_lt in E2 || apply Nat.ltb_ge in E2);
      (destruct (lo <=? count) eqn:E3;
       [apply Nat.leb_le in E3|apply Nat.leb_gt in E3]); try lia;
      cbn [isSome andb]; try reflexivity; symmetry; apply Nat.leb_le; lia.
  - destruct (hi <=? count) eqn:E1.
    + apply Nat.leb_le in E1.
      assert (E4 : (count + S (List.length rest) <=? hi) = false)
        by (apply Nat.leb_gt; lia).
      rewrite E4, andb_false_r.
      destruct (count <? lo); reflexivity.
    + apply Nat.leb_gt in E1.
      destruct (p c) eqn:Ep.
      * assert (E5 : (S pos =? pos) = false) by (apply Nat.eqb_neq; lia).
        rewrite E5, andb_false_r.
        specialize (IH fuel (S count) (S pos) caps).
        simpl in Hf.
        rewrite <- Nat.add_succ_comm. cbn [andb].
        destruct (count <? lo) eqn:E2.
        -- apply IH; lia.
        -- rewrite <- IH by lia.
           destruct (rep_loop _ _ _ _ _ _ _ _); reflexivity.
      * cbn [andb]. destruct (count <? lo); reflexivity.
Qed.

Lemma nameChar_agree c : isNameChar c = nameCharacter c.
Proof.
  unfold isNameChar, nameCharacter, oneOf. simpl.
  rewrite orb_false_r, !orb_assoc. reflexivity.
Qed.

(** [/^[A-Za-z ,.'-]{2,80}$/.test(s)] *)
Lemma test_nameRe s :
  test nameRe s =
  forallb isNameChar s && (2 <=? List.length s) && (List.length s <=? 80).
Proof.
  unfold nameRe. simpl seqs. rewrite test_bol.
  simpl rmatch.
  pose proof (rep_class_eol isNameChar 2 80 s (S (2 + List.length s)) 0 0 []) as H.
  simpl in H. unfold isSome in H. apply H; lia.
Qed.

Lemma rmatch_litCI_fail pat :
  forall pos s caps k,
    prefixCI pat s = false -> rmatch (litCI pat) (MState pos s caps) k = None.
Proof.
  induction pat as [|x pat IH]; intros pos s caps k H; simpl in *; [discriminate|].
  destruct s as [|c s]; [reflexivity|].
  destruct (isCI x c); simpl in H; [|reflexivity].
  apply IH; exact H.
Qed.

Lemma test_bol_litCI_prefix pat r s :
  test (Seq Bol (Seq (litCI pat) r)) s = true -> prefixCI pat s = true.
Proof.
  rewrite test_bol. simpl rmatch.
  destruct (prefixCI pat s) eqn:E; [reflexivity|].
  rewrite rmatch_litCI_fail by exact E. discriminate.
Qed.

Lemma isCI_lower x c :
  isLower x = true -> isCI x c = true -> lowerUnit c = [x].
Proof.
  unfold isCI, isAsciiLetter. intros Hx. rewrite Hx, orb_true_r.
  unfold isLower, in_range in Hx. apply andb_prop in Hx. destruct Hx as [H1 H2].
  apply N.leb_le in H1, H2.
  intros H. apply orb_prop in H. unfold cu_eqb in H.
  destruct H as [H|H]; apply N.eqb_eq in H; subst c; unfold lowerUnit.
  - assert (E : isUpper x = false).
    { unfold isUpper, in_range. apply andb_false_iff. right. apply N.leb_gt. lia. }
    rewrite E. unfold cu_eqb, KELVIN_SIGN, CAPITAL_I_DOT.
    replace (N.eqb x 8490%N) with false by (symmetry; apply N.eqb_neq; lia).
    replace (N.eqb x 304%N) with false by (symmetry; apply N.eqb_neq; lia).
    reflexivity.
  - assert (E : isUpper (x - 32)%N = true).
    { unfold isUpper, in_range. apply andb_true_iff. split; apply N.leb_le; lia. }
    rewrite E. f_equal. lia.
Qed.

Lemma prefixCI_lower pat :
  forallb isLower pat = true ->
  forall s, prefixCI pat s = true -> startsWith pat (toLowerCase s) = true.
Proof.
  induction pat as [|x pat IH]; intros Hp s H; [reflexivity|].
  simpl in Hp. apply andb_prop in Hp. destruct Hp as [Hx Hp].
  destruct s as [|c s]; simpl in H; [discriminate|].
  apply andb_prop in H. destruct H as [Hc Hs].
  unfold toLowerCase. simpl flat_map.
  rewrite (isCI_lower x c Hx Hc). simpl.
  unfold cu_eqb at 1. rewrite N.eqb_refl. simpl.
  apply IH; assumption.
Qed.

(** The first test of the skills condition implies the second. *)
Lemma isSkillsLine_contains line : isSkillsLine line = containsSkill line.
Proof.
  unfold isSkillsLine, containsSkill.
  destruct (test skillsHeadRe line) eqn:E; [|reflexivity].
  simpl. symmetry.
  unfold skillsHeadRe in E. cbn [seqs] in E.
  apply test_bol_litCI_prefix in E.
  apply prefixCI_lower in E; [|reflexivity].
  destruct (toLowerCase line); simpl in *; rewrite E; reflexivity.
Qed.

End RegexFacts.

(** ** The parser *)

Section ParserFacts.

Lemma lastOk_tail c r : r <> [] -> lastOk (c :: r) = lastOk r.
Proof. destruct r; [congruence|reflexivity]. Qed.

(** On a string that neither starts nor ends with white space,
    [split(/\s+/)] yields exactly the white-space-separated tokens. *)
Lemma splitWsAux_tokens :
  forall s cur prev,
    lastOk s = true ->
    (cur <> [] /\ prev = false) \/
    (cur = [] /\ prev = true /\ s <> []) \/
    (cur = [] /\ prev = false /\ s <> [] /\ headOk s = true) ->
    splitWsAux s cur prev = wsTokensAux s cur.
Proof.
  induction s as [|c r IH]; intros cur prev Hl Hst.
  - destruct Hst as [[Hc _]|[[_ [_ H]]|[_ [_ [H _]]]]]; try congruence.
    simpl. destruct cur; [congruence|reflexivity].
  - simpl. destruct (isWs c) eqn:Ews.
    + assert (Hr : r <> []).
      { intros ->. simpl in Hl. rewrite Ews in Hl. discriminate. }
      rewrite (lastOk_tail c r Hr) in Hl.
      destruct Hst as [[Hc ->]|[[-> [-> _]]|[_ [_ [_ H]]]]].
      * destruct cur; [congruence|].
        f_equal. apply IH; [exact Hl|]. right; left; auto.
      * apply IH; [exact Hl|]. right; left; auto.
      * simpl in H. rewrite Ews in H. discriminate.
    + assert (Hl' : lastOk r = true).
      { destruct r; [reflexivity|]. exact Hl. }
      assert (Hcur : c :: cur <> []) by discriminate.
      destruct Hst as [[_ ->]|[[_ [-> _]]|[_ [-> _]]]];
        apply IH; auto.
Qed.

Lemma splitWs_tokens s :
  s <> [] -> headOk s = true -> lastOk s = true ->
  splitWs s = wsTokens s.
Proof.
  intros Hs Hh Hl. apply splitWsAux_tokens; [exact Hl|].
  right; right; auto.
Qed.

Lemma linesOf_elements text line :
  In line (linesOf text) -> line <> [] /\ headOk line = true /\ lastOk line = true.
Proof.
  unfold linesOf. intros H.
  destruct (filter_trim_elements _ _ H) as [H1 H2].
  split; [exact H1|]. rewrite <- H2.
  split; [apply trim_headOk|apply trim_lastOk].
Qed.

Lemma forallb_agree (p q : code_unit -> bool) s :
  (forall c, p c = q c) -> forallb p s = forallb q s.
Proof.
  intros H; induction s as [|c s IH]; [reflexivity|].
  simpl. rewrite H, IH. reflexivity.
Qed.

Lemma nameAccepted_rule text line :
  In line (linesOf text) -> nameAccepted line = nameRule line.
Proof.
  intros H. destruct (linesOf_elements _ _ H) as [H1 [H2 H3]].
  unfold nameAccepted, nameRule.
  rewrite test_nameRe, (splitWs_tokens line H1 H2 H3).
  rewrite (forallb_agree _ _ line nameChar_agree). reflexivity.
Qed.

Lemma splitLinesAux_first x :
  forallb (fun c => negb (cu_eqb c LF || cu_eqb c CR)) x = true ->
  forall cur rest,
    splitLinesAux (x ++ LF :: rest) cur
    = rev (rev x ++ cur) :: splitLinesAux rest [].
Proof.
  induction x as [|c x IH]; intros Hx cur rest.
  - simpl. reflexivity.
  - simpl in Hx. apply andb_prop in Hx. destruct Hx as [Hc Hx].
    apply negb_true_iff, orb_false_iff in Hc. destruct Hc as [H1 H2].
    simpl app. simpl splitLinesAux. rewrite H1, H2.
    assert (E : splitLinesAux (x ++ LF :: rest) (c :: cur)
                = rev (rev (c :: x) ++ cur) :: splitLinesAux rest []).
    { rewrite IH by exact Hx. simpl rev. rewrite <- app_assoc. reflexivity. }
    destruct (x ++ LF :: rest) eqn:Ex; [destruct x; discriminate|].
    rewrite <- Ex in *. exact E.
Qed.

Example parse_email_example :
  email (parse (u "Contact: jane.doe@example.com please"))
  = Some (u "jane.doe@example.com").
Proof. vm_compute. reflexivity. Qed.

Example parse_phone_example :
  phone (parse (u "Call +27821234567 or 0115550000")) = Some (u "+27821234567").
Proof. vm_compute. reflexivity. Qed.

Example matchAll_phone_example :
  matchAll phoneRe (u "Call +27821234567 or 0115550000")
  = Some [u "+27821234567"; u "0115550000"].
Proof. vm_compute. reflexivity. Qed.

Example parse_skills_em_dash_example :
  skills (parse (u "Skills " ++ [EM_DASH] ++ u " Java, Python")) = [] /\
  skills (parse (u "Skills " ++ [EN_DASH] ++ u " Java, Python"))
    = [u "Java"; u "Python"].
Proof. split; vm_compute; reflexivity. Qed.

Lemma skillsScan_find ls :
  skillsScan ls =
  match find containsSkill ls with
  | Some line => skillsParts line
  | None => []
  end.
Proof.
  induction ls as [|l ls IH]; [reflexivity|].
  simpl. rewrite isSkillsLine_contains.
  destruct (containsSkill l); [reflexivity|exact IH].
Qed.

Lemma skillsScan_elements ls s :
  In s (skillsScan ls) -> s <> [] /\ trim s = s.
Proof.
  induction ls as [|l ls IH]; simpl; [tauto|].
  destruct (isSkillsLine l); [|exact IH].
  unfold skillsParts. apply filter_trim_elements.
Qed.

Lemma sectionStep_header st line :
  isExperienceHeader line || isEducationHeader line = true ->
  acc_experience (sectionStep st line) = acc_experience st /\
  acc_education (sectionStep st line) = acc_education st.
Proof.
  intros H. unfold sectionStep.
  destruct (isExperienceHeader line); [split; reflexivity|].
  simpl in H. rewrite H. split; reflexivity.
Qed.

End ParserFacts.

(** C5, as amended.  [parse] sets [name] to the first non-empty trimmed
    line exactly when that line consists solely of the letters A-Z and
    a-z, spaces and the characters [,.'-], has length 2 to 80, and has at
    most 5 whitespace-separated tokens; otherwise [name] is absent.  The
    input "John Smith\nSoftware Engineer" yields "John Smith", and every
    input whose first line is "JOHN SMITH - RESUME" yields that line as
    the name: the hyphen is in the accepted class and the line has four
    tokens. *)
Theorem parse_name_rule :
  (forall text,
     name (parse text) =
     match linesOf text with
     | [] => None
     | line :: _ => if nameRule line then Some line else None
     end) /\
  name (parse johnSmith) = Some (u "John Smith") /\
  (forall rest,
     name (parse (u "JOHN SMITH - RESUME" ++ LF :: rest))
     = Some (u "JOHN SMITH - RESUME")).
Proof.
  split; [|split].
  - intros text. unfold parse. cbn [name nullish]. unfold parseName.
    destruct (linesOf text) as [|line rest] eqn:E; [reflexivity|].
    rewrite (nameAccepted_rule text line); [reflexivity|].
    rewrite E. left. reflexivity.
  - vm_compute. reflexivity.
  - intros rest. unfold parse. cbn [name nullish].
    unfold linesOf, splitLines.
    rewrite splitLinesAux_first by (vm_compute; reflexivity).
    cbn [map].
    replace (trim (rev (rev (u "JOHN SMITH - RESUME") ++ [])))
      with (u "JOHN SMITH - RESUME") by (vm_compute; reflexivity).
    cbn [filter truthy u]. 
    replace (truthy (u "JOHN SMITH - RESUME")) with true by (vm_compute; reflexivity).
    cbn [parseName].
    replace (nameAccepted (u "JOHN SMITH - RESUME")) with true
      by (vm_compute; reflexivity).
    reflexivity.
Qed.

(** C5, as stated, fails: the input "JOHN SMITH - RESUME\n..." has a name. *)
Lemma parse_name_resume_line_defined :
  name (parse johnSmithResume) <> None.
Proof. vm_compute. discriminate. Qed.

(** C6.  On the four-line sample, [experience] is the single entry
    Senior Engineer / Acme Corp / 2019-2022 and [education] the single
    entry BSc Computer Science / MIT / 2015; and on every line the
    section-header patterns are tested before the entry pattern: a line
    that is a header adds no entry, whatever else it matches. *)
Theorem parse_sections_sample :
  experience (parse sectionsText) =
    [mkExperience (Some (u "Senior Engineer")) (Some (u "Acme Corp"))
                  (Some (u "2019-2022")) None] /\
  education (parse sectionsText) =
    [mkEducation (Some (u "BSc Computer Science")) (Some (u "MIT"))
                 (Some (u "2015"))] /\
  (forall st line,
     isExperienceHeader line || isEducationHeader line = true ->
     acc_experience (sectionStep st line) = acc_experience st /\
     acc_education (sectionStep st line) = acc_education st).
Proof.
  split; [vm_compute; reflexivity|].
  split; [vm_compute; reflexivity|].
  exact sectionStep_header.
Qed.

(** A line that matches the entry pattern and is also an education header
    is taken as the header. *)
Lemma parse_sections_sample_witness :
  isSome (exec entryRe masterLine) = true /\
  isExperienceHeader masterLine || isEducationHeader masterLine = true /\
  acc_education
    (sectionStep (mkSectionState (Some SecEducation) [] []) masterLine) = [].
Proof.
  split; [vm_compute; reflexivity|].
  split; [vm_compute; reflexivity|].
  apply (proj2 (proj2 parse_sections_sample)
           (mkSectionState (Some SecEducation) [] []) masterLine).
  vm_compute. reflexivity.
Defined.

(** C7, as amended.  [parse] computes [skills] from the first of the
    first 30 non-empty lines that contains "skill" (case-insensitive), and
    from that line only: the line is cut at every ':', '-', en dash (and
    line feed), the first piece is dropped and the others are joined by
    single spaces; the result is split on ';', ',', '|', bullet or middle
    dot, each token trimmed and the empty ones dropped.  For every input,
    every element of [skills] is a non-empty trimmed string. *)
Theorem parse_skills_rule :
  forall text,
    skills (parse text) =
      match find containsSkill (firstn 30 (linesOf text)) with
      | Some line =>
          filter truthy
            (map trim
               (splitOn isSkillsItemSep
                  (join (u " ") (skipn 1 (splitOn isSkillsHeadSep line)))))
      | None => []
      end /\
    Forall (fun s => s <> [] /\ trim s = s) (skills (parse text)).
Proof.
  intros text. unfold parse. cbn [skills nullish]. unfold parseSkills.
  split.
  - apply skillsScan_find.
  - apply Forall_forall. intros s. apply skillsScan_elements.
Qed.

(** C7, as stated, fails: a hyphen after the first separator is also a
    cut, so "front-end" comes back as "front end". *)
Lemma parse_skills_hyphen_differs :
  skills (parse skillsHyphenText) = [u "C"; u "front end"] /\
  claimedSkills skillsHyphenText = [u "C"; u "front-end"] /\
  skills (parse skillsHyphenText) <> claimedSkills skillsHyphenText.
Proof.
  split; [vm_compute; reflexivity|].
  split; [vm_compute; reflexivity|].
  vm_compute. discriminate.
Qed.

(** C8.  For every input string, [parse(text).raw] is the input itself;
    a text without structure gives empty fields and keeps [raw]; and
    [parse("")] has every field empty and [raw = ""]. *)
Theorem parse_raw_is_input :
  (forall text, raw (parse text) = text) /\
  parse (u "%%% ###") = mkParsed None None None [] [] [] (u "%%% ###") /\
  parse [] = mkParsed None None None [] [] [] [].
Proof.
  split; [intros text; reflexivity|].
  split; vm_compute; reflexivity.
Qed.

(** ** The extraction stage *)

Section ServiceFacts.

Variable env : Env.

Lemma bind_returned {A B} t (a : A) (f : A -> M B) :
  bind (t, Returned a) f = (t ++ trace (f a), outcome (f a)).
Proof. unfold bind, trace, outcome. destruct (f a); reflexivity. Qed.

Lemma tryCatch_returned {A} t (a : A) h :
  tryCatch (t, Returned a) h = (t, Returned a).
Proof. reflexivity. Qed.

Lemma tryCatch_thrown {A} t e (h : Exception -> M A) :
  tryCatch (t, Thrown e) h = (t ++ trace (h e), outcome (h e)).
Proof. unfold tryCatch, trace, outcome. destruct (h e); reflexivity. Qed.

Lemma recognize_shape b :
  (exists v, recognizeImageBuffer env b = ([EvRecognize b], Returned v)) \/
  recognizeImageBuffer env b = ([EvRecognize b], Thrown TypeError).
Proof.
  unfold recognizeImageBuffer.
  destruct (tesseractLib env) as [f|]; [|left; exists []; reflexivity].
  destruct (f b (u "eng")) as [r|error].
  - left. exists (nullish r []). reflexivity.
  - destruct error; try (left; exists []; reflexivity).
    right. reflexivity.
Qed.

Lemma recognize_pair b :
  recognizeImageBuffer env b
  = ([EvRecognize b], outcome (recognizeImageBuffer env b)).
Proof.
  destruct (recognize_shape b) as [[v H]|H]; rewrite H; reflexivity.
Qed.

Lemma ocrPages_shape results :
  forall acc, exists t v,
    ocrPages env results acc = (t, Returned v) /\ forallb isOcrEvent t = true.
Proof.
  induction results as [|r results IH]; intros acc.
  - exists [], acc. split; reflexivity.
  - cbn [ocrPages]. destruct (pageImage r) as [b|]; [|apply IH].
    destruct (recognize_shape (bufferFromBase64 env b)) as [[v Hv]|Hv]; rewrite Hv.
    + rewrite bind_returned.
      destruct (truthy v).
      * cbn [ret trace outcome fst snd]. rewrite tryCatch_returned, bind_returned.
        destruct (IH (acc ++ v ++ [LF])) as [t [w [H1 H2]]]. rewrite H1.
        eexists _, w. split; [reflexivity|].
        simpl. exact H2.
      * cbn [ret trace outcome fst snd]. rewrite tryCatch_returned, bind_returned.
        destruct (IH acc) as [t [w [H1 H2]]]. rewrite H1.
        eexists _, w. split; [reflexivity|].
        simpl. exact H2.
    + cbn [bind]. rewrite tryCatch_thrown. cbn [ret trace outcome fst snd].
      rewrite bind_returned.
      destruct (IH acc) as [t [w [H1 H2]]]. rewrite H1.
      eexists _, w. split; [reflexivity|].
      simpl. exact H2.
Qed.

Lemma ocrPdfBuffer_shape b :
  exists t v,
    ocrPdfBuffer env b = (EvOcrPdfBuffer b :: t, Returned v) /\
    forallb isOcrEvent t = true.
Proof.
  unfold ocrPdfBuffer.
  destruct (pdf2picLib env) as [bulk|]; [|exists [], []; split; reflexivity].
  destruct (bulk b) as [results|]; [|exists [EvRasterize b], []; split; reflexivity].
  destruct results as [pages|]; [|exists [EvRasterize b], []; split; reflexivity].
  destruct pages as [|p pages]; [exists [EvRasterize b], []; split; reflexivity|].
  destruct (ocrPages_shape (p :: pages) []) as [t [v [H1 H2]]].
  rewrite H1.
  exists (EvRasterize b :: t ++ []), (trim v). split; [reflexivity|].
  rewrite app_nil_r. simpl. exact H2.
Qed.

Lemma pdfNativeText_shape b :
  exists t v,
    pdfNativeText env b = (t, Returned v) /\ forallb isPdfParseEvent t = true.
Proof.
  unfold pdfNativeText.
  destruct (pdfParseLib env) as [f|]; [|exists [], []; split; reflexivity].
  destruct (f b) as [r|].
  - exists [EvPdfParse b], (nullish r []). split; reflexivity.
  - exists [EvPdfParse b], []. split; reflexivity.
Qed.

Lemma needsOcrFallback_iff text :
  needsOcrFallback text = true <-> List.length (trim text) < 20.
Proof.
  unfold needsOcrFallback. destruct text as [|c r].
  - simpl. split; [lia|reflexivity].
  - cbn [truthy negb orb]. apply Nat.ltb_lt.
Qed.

Lemma pdfParse_not_ocr t :
  forallb isPdfParseEvent t = true -> existsb isOcrEvent t = false.
Proof.
  induction t as [|e t IH]; [reflexivity|].
  simpl. intros H. apply andb_prop in H. destruct H as [H1 H2].
  rewrite (IH H2). destruct e; try discriminate; reflexivity.
Qed.

(** The PDF branch, spelled out. *)
Lemma extractPdf_cases b :
  exists t1 native,
    pdfNativeText env b = (t1, Returned native) /\
    forallb isPdfParseEvent t1 = true /\
    ((List.length (trim native) < 20 /\
      exists t2 ocr,
        ocrPdfBuffer env b = (EvOcrPdfBuffer b :: t2, Returned ocr) /\
        forallb isOcrEvent t2 = true /\
        extractPdf env b =
          (t1 ++ EvOcrPdfBuffer b :: t2,
           Returned (if truthy ocr then ocr else native)))
     \/
     (20 <= List.length (trim native) /\
      extractPdf env b = (t1, Returned native))).
Proof.
  destruct (pdfNativeText_shape b) as [t1 [native [H1 H2]]].
  exists t1, native. split; [exact H1|]. split; [exact H2|].
  unfold extractPdf. rewrite H1, bind_returned.
  destruct (needsOcrFallback native) eqn:E.
  - left. apply needsOcrFallback_iff in E. split; [exact E|].
    destruct (ocrPdfBuffer_shape b) as [t2 [ocr [H3 H4]]].
    exists t2, ocr. split; [exact H3|]. split; [exact H4|].
    rewrite H3, bind_returned.
    destruct (truthy ocr); cbn [ret trace outcome fst snd tryCatch];
      rewrite app_nil_r; reflexivity.
  - right. split.
    + destruct (Nat.lt_ge_cases (List.length (trim native)) 20) as [H|H]; [|exact H].
      apply needsOcrFallback_iff in H. congruence.
    + cbn [ret trace outcome fst snd]. rewrite app_nil_r. reflexivity.
Qed.

Lemma extractWord_cases b :
  (exists v, extractWord env b = ([EvMammoth b], Returned v)) \/
  (exists t, extractWord env b = (t, Thrown MalformedDocument) /\
             (t = [] \/ t = [EvMammoth b]) /\
             match mammothLib env with
             | Some f => f b = None
             | None => True
             end).
Proof.
  unfold extractWord.
  destruct (mammothLib env) as [f|].
  - destruct (f b) as [r|] eqn:E.
    + left. exists (nullish r []). reflexivity.
    + right. exists [EvMammoth b]. split; [reflexivity|]. split; [right|]; reflexivity.
  - right. exists []. split; [reflexivity|]. split; [left; reflexivity|exact I].
Qed.

Lemma extractImage_shape b :
  (exists v, extractImage env b = ([EvRecognize b], Returned v)) \/
  extractImage env b = ([EvRecognize b], Thrown ImageOcrFailed).
Proof.
  unfold extractImage.
  destruct (recognize_shape b) as [[v Hv]|Hv]; rewrite Hv.
  - left. exists v. reflexivity.
  - right. reflexivity.
Qed.

Lemma dispatch_branches file :
  dispatch env file =
    if isPdfMime (mimetype file) then extractPdf env (buffer file)
    else if isWordMime (mimetype file) then extractWord env (buffer file)
    else if isImageMime (mimetype file) then extractImage env (buffer file)
    else throw UnsupportedFormat.
Proof. reflexivity. Qed.

(** How the dispatch can end. *)
Lemma dispatch_cases file :
  (exists t text, dispatch env file = (t, Returned text)) \/
  (isPdfMime (mimetype file) = false /\ isWordMime (mimetype file) = true /\
   exists t, dispatch env file = (t, Thrown MalformedDocument)) \/
  (isPdfMime (mimetype file) = false /\ isWordMime (mimetype file) = false /\
   isImageMime (mimetype file) = false /\
   dispatch env file = ([], Thrown UnsupportedFormat)) \/
  (isPdfMime (mimetype file) = false /\ isWordMime (mimetype file) = false /\
   isImageMime (mimetype file) = true /\
   outcome (recognizeImageBuffer env (buffer file)) = Thrown TypeError /\
   dispatch env file = ([EvRecognize (buffer file)], Thrown ImageOcrFailed)).
Proof.
  rewrite dispatch_branches.
  destruct (isPdfMime (mimetype file)).
  - left. destruct (extractPdf_cases (buffer file))
      as [t1 [native [_ [_ [[_ [t2 [ocr [_ [_ H]]]]]|[_ H]]]]]];
      rewrite H; eauto.
  - destruct (isWordMime (mimetype file)).
    + destruct (extractWord_cases (buffer file)) as [[v H]|[t [H _]]].
      * left. rewrite H. eauto.
      * right; left. rewrite H. eauto.
    + destruct (isImageMime (mimetype file)).
      * unfold extractImage.
        destruct (recognize_shape (buffer file)) as [[v H]|H]; rewrite H.
        -- left. eexists _, _. reflexivity.
        -- right; right; right. repeat split; reflexivity.
      * right; right; left. auto.
Qed.

Lemma extractText_of_returned file t text :
  dispatch env file = (t, Returned text) ->
  extractText env file =
    (t, if isBlank text then Thrown NoExtractableText else Returned text).
Proof.
  intros H. unfold extractText. rewrite H, bind_returned.
  destruct (isBlank text); cbn [throw ret trace outcome fst snd];
    rewrite app_nil_r; reflexivity.
Qed.

Lemma extractText_of_thrown file t e :
  dispatch env file = (t, Thrown e) -> extractText env file = (t, Thrown e).
Proof. intros H. unfold extractText. rewrite H. reflexivity. Qed.

Lemma isBlank_false_iff text : isBlank text = false <-> whitespaceOnly text = false.
Proof.
  pose proof (isBlank_iff text) as H.
  destruct (isBlank text), (whitespaceOnly text); split; intros; try reflexivity;
    try discriminate; destruct H as [H1 H2];
    [pose proof (H1 eq_refl)|pose proof (H2 eq_refl)]; discriminate.
Qed.

End ServiceFacts.

Lemma in_app_ocr_marker b t1 t2 :
  forallb isPdfParseEvent t1 = true ->
  In (EvOcrPdfBuffer b) (t1 ++ EvOcrPdfBuffer b :: t2).
Proof. intros _. apply in_or_app. right. left. reflexivity. Qed.

Lemma pdfParse_no_marker b t :
  forallb isPdfParseEvent t = true -> ~ In (EvOcrPdfBuffer b) t.
Proof.
  intros H Hin. rewrite forallb_forall in H.
  specialize (H _ Hin). discriminate.
Qed.

(** C2.  For a PDF input, the OCR fallback ([ocrPdfBuffer]: rasterize the
    pages and OCR each) is attempted if and only if the trimmed native
    text is shorter than 20; when attempted, its result replaces the
    native text only if it is non-empty, otherwise the native text is
    kept; and when the trimmed native text has length at least 20, no OCR
    or rasterization call is made and the native text is the result. *)
Theorem pdf_ocr_fallback env file :
  isPdfMime (mimetype file) = true ->
  exists native,
    outcome (pdfNativeText env (buffer file)) = Returned native /\
    (In (EvOcrPdfBuffer (buffer file)) (trace (dispatch env file))
       <-> List.length (trim native) < 20) /\
    (List.length (trim native) < 20 ->
       exists ocr,
         outcome (ocrPdfBuffer env (buffer file)) = Returned ocr /\
         outcome (dispatch env file)
           = Returned (if truthy ocr then ocr else native)) /\
    (20 <= List.length (trim native) ->
       existsb isOcrEvent (trace (dispatch env file)) = false /\
       outcome (dispatch env file) = Returned native).
Proof.
  intros Hpdf. rewrite dispatch_branches, Hpdf.
  destruct (extractPdf_cases env (buffer file))
    as [t1 [native [H1 [H2 [[Hlt [t2 [ocr [H3 [H4 H5]]]]]|[Hge H5]]]]]];
    exists native; rewrite H1, H5; cbn [trace outcome fst snd].
  - split; [reflexivity|]. split; [|split].
    + split; [intros _; exact Hlt|intros _; apply in_app_ocr_marker; exact H2].
    + intros _. exists ocr. rewrite H3. split; reflexivity.
    + intros Hge. lia.
  - split; [reflexivity|]. split; [|split].
    + split; [intros Hin; exfalso; exact (pdfParse_no_marker _ _ H2 Hin)|lia].
    + intros Hlt. lia.
    + intros _. split; [apply pdfParse_not_ocr; exact H2|reflexivity].
Qed.

(** A text PDF: the native text is long enough and no OCR call is made. *)
Lemma pdf_ocr_fallback_witness :
  exists native,
    outcome (pdfNativeText (sampleEnv nativeLong twoPages) (buffer samplePdf))
      = Returned native /\
    (In (EvOcrPdfBuffer (buffer samplePdf))
        (trace (dispatch (sampleEnv nativeLong twoPages) samplePdf))
       <-> List.length (trim native) < 20) /\
    (List.length (trim native) < 20 ->
       exists ocr,
         outcome (ocrPdfBuffer (sampleEnv nativeLong twoPages) (buffer samplePdf))
           = Returned ocr /\
         outcome (dispatch (sampleEnv nativeLong twoPages) samplePdf)
           = Returned (if truthy ocr then ocr else native)) /\
    (20 <= List.length (trim native) ->
       existsb isOcrEvent (trace (dispatch (sampleEnv nativeLong twoPages) samplePdf))
         = false /\
       outcome (dispatch (sampleEnv nativeLong twoPages) samplePdf) = Returned native).
Proof.
  apply (pdf_ocr_fallback (sampleEnv nativeLong twoPages) samplePdf).
  vm_compute. reflexivity.
Defined.

(** C3, as amended.  After the dispatch and any OCR fallback, the
    extraction fails with NoExtractableText if and only if the final text
    is empty or whitespace-only, and otherwise returns that text; so every
    call ends in exactly one of: a text that is not blank,
    UnsupportedFormat, MalformedDocument, NoExtractableText, or the
    rejection of the image branch ("Failed to OCR the uploaded image."),
    which is raised only for an image upload whose OCR call throws. *)
Theorem extraction_outcomes env file :
  (forall t text,
     dispatch env file = (t, Returned text) ->
     (outcome (extractText env file) = Thrown NoExtractableText
        <-> whitespaceOnly text = true) /\
     (whitespaceOnly text = false ->
        outcome (extractText env file) = Returned text)) /\
  ((exists text, outcome (extractText env file) = Returned text /\
                 whitespaceOnly text = false) \/
   outcome (extractText env file) = Thrown UnsupportedFormat \/
   outcome (extractText env file) = Thrown MalformedDocument \/
   outcome (extractText env file) = Thrown NoExtractableText \/
   (outcome (extractText env file) = Thrown ImageOcrFailed /\
    isPdfMime (mimetype file) = false /\ isWordMime (mimetype file) = false /\
    isImageMime (mimetype file) = true /\
    outcome (recognizeImageBuffer env (buffer file)) = Thrown TypeError)) /\
  UnsupportedFormat <> MalformedDocument /\
  UnsupportedFormat <> NoExtractableText /\
  MalformedDocument <> NoExtractableText /\
  ImageOcrFailed <> UnsupportedFormat /\
  ImageOcrFailed <> MalformedDocument /\
  ImageOcrFailed <> NoExtractableText.
Proof.
  split; [|split].
  - intros t text H. rewrite (extractText_of_returned env file t text H).
    cbn [outcome snd]. destruct (isBlank text) eqn:E.
    + apply isBlank_iff in E. split; [tauto|]. intros E'. congruence.
    + apply isBlank_false_iff in E. split.
      * split; [discriminate|congruence].
      * intros _. reflexivity.
  - destruct (dispatch_cases env file)
      as [[t [text H]]|[[_ [_ [t H]]]|[[_ [_ [_ H]]]|[H1 [H2 [H3 [H4 H]]]]]]].
    + rewrite (extractText_of_returned env file t text H). cbn [outcome snd].
      destruct (isBlank text) eqn:E.
      * right; right; right; left. reflexivity.
      * left. exists text. split; [reflexivity|]. apply isBlank_false_iff. exact E.
    + rewrite (extractText_of_thrown env file t _ H). right; right; left. reflexivity.
    + rewrite (extractText_of_thrown env file _ _ H). right; left. reflexivity.
    + rewrite (extractText_of_thrown env file _ _ H).
      right; right; right; right. auto.
  - repeat split; discriminate.
Qed.

(** A scanned PDF without any recognised text: the extraction reports
    NoExtractableText. *)
Lemma extraction_outcomes_witness :
  outcome (extractText (sampleEnv (u "  ") []) samplePdf) = Thrown NoExtractableText.
Proof.
  apply (proj1 (proj1 (extraction_outcomes (sampleEnv (u "  ") []) samplePdf)
                  _ (u "  ") eq_refl)).
  vm_compute. reflexivity.
Defined.

(** C3, as stated, fails: when the OCR call of an image upload throws (the
    OCR library rejects with [undefined] and the handler of the OCR service
    reads its message), the extraction ends in the rejection of the image
    branch, which is neither a result nor one of the three errors. *)
Lemma image_ocr_rejection_is_a_fourth_outcome :
  outcome (recognizeImageBuffer rejectingOcrEnv (buffer sampleImage))
    = Thrown TypeError /\
  outcome (extractText rejectingOcrEnv sampleImage) = Thrown ImageOcrFailed /\
  ~ ((exists text, outcome (extractText rejectingOcrEnv sampleImage) = Returned text) \/
     outcome (extractText rejectingOcrEnv sampleImage) = Thrown UnsupportedFormat \/
     outcome (extractText rejectingOcrEnv sampleImage) = Thrown MalformedDocument \/
     outcome (extractText rejectingOcrEnv sampleImage) = Thrown NoExtractableText).
Proof.
  split; [vm_compute; reflexivity|].
  split; [vm_compute; reflexivity|].
  intros [[text H]|[H|[H|H]]]; vm_compute in H; discriminate.
Qed.

(** C9, as amended.  The extraction rejects with UnsupportedFormat, with
    no extraction attempted, exactly the MIME types whose lower-cased form
    neither contains "pdf", nor contains "word" or "officedocument", nor
    starts with "image/".  On the Word branch a failure of the Word
    extractor surfaces as MalformedDocument, and no OCR call is made on
    that branch. *)
Theorem mime_dispatch_rejections env file :
  (outcome (extractText env file) = Thrown UnsupportedFormat <->
     isPdfMime (mimetype file) = false /\
     isWordMime (mimetype file) = false /\
     isImageMime (mimetype file) = false) /\
  (outcome (extractText env file) = Thrown UnsupportedFormat ->
     trace (extractText env file) = []) /\
  (isPdfMime (mimetype file) = false -> isWordMime (mimetype file) = true ->
     existsb isOcrEvent (trace (extractText env file)) = false /\
     (match mammothLib env with
      | Some extractRawText => extractRawText (buffer file) = None
      | None => True
      end ->
      outcome (extractText env file) = Thrown MalformedDocument)).
Proof.
  assert (Hiff : outcome (extractText env file) = Thrown UnsupportedFormat ->
                 isPdfMime (mimetype file) = false /\
                 isWordMime (mimetype file) = false /\
                 isImageMime (mimetype file) = false /\
                 extractText env file = ([], Thrown UnsupportedFormat)).
  { destruct (dispatch_cases env file)
      as [[t [text H]]|[[_ [_ [t H]]]|[[H1 [H2 [H3 H]]]|[_ [_ [_ [_ H]]]]]]].
    - rewrite (extractText_of_returned env file t text H). cbn [outcome snd].
      destruct (isBlank text); discriminate.
    - rewrite (extractText_of_thrown env file t _ H). discriminate.
    - intros _. rewrite (extractText_of_thrown env file _ _ H). auto.
    - rewrite (extractText_of_thrown env file _ _ H). discriminate. }
  split; [|split].
  - split; [intros H; destruct (Hiff H) as [H1 [H2 [H3 _]]]; auto|].
    intros [H1 [H2 H3]].
    unfold extractText. rewrite dispatch_branches, H1, H2, H3. reflexivity.
  - intros H. destruct (Hiff H) as [_ [_ [_ E]]]. rewrite E. reflexivity.
  - intros H1 H2.
    assert (D : dispatch env file = extractWord env (buffer file))
      by (rewrite dispatch_branches, H1, H2; reflexivity).
    destruct (extractWord_cases env (buffer file)) as [[v H]|[t [H [Ht Hm]]]].
    + rewrite H in D. rewrite (extractText_of_returned env file _ _ D).
      split; [reflexivity|].
      intros Hfail. exfalso.
      unfold extractWord in H. destruct (mammothLib env) as [f|]; [|discriminate].
      rewrite Hfail in H. discriminate.
    + rewrite H in D. rewrite (extractText_of_thrown env file _ _ D).
      split; [|intros _; reflexivity].
      destruct Ht as [->| ->]; reflexivity.
Qed.

(** A Word upload that the Word extractor cannot read. *)
Lemma mime_dispatch_rejections_witness :
  existsb isOcrEvent (trace (extractText (sampleEnv [] twoPages) sampleDocx)) = false /\
  outcome (extractText (sampleEnv [] twoPages) sampleDocx) = Thrown MalformedDocument /\
  trace (extractText (sampleEnv [] twoPages) sampleText) = [].
Proof.
  pose proof (mime_dispatch_rejections (sampleEnv [] twoPages) sampleDocx) as [_ [_ H]].
  destruct (H eq_refl eq_refl) as [H1 H2].
  split; [exact H1|]. split; [exact (H2 eq_refl)|].
  apply (proj1 (proj2 (mime_dispatch_rejections (sampleEnv [] twoPages) sampleText))).
  vm_compute. reflexivity.
Defined.

(** C9, as stated, fails: the MIME type of an Excel sheet is none of
    application/pdf, a Word type, image/*, and does not even contain
    "word"; yet it is not rejected as unsupported but handed to the Word
    extractor. *)
Lemma xlsx_is_not_rejected :
  declaredSupported (toLowerCase (mimetype sampleXlsx)) = false /\
  includes (u "word") (toLowerCase (mimetype sampleXlsx)) = false /\
  In (EvMammoth (buffer sampleXlsx))
     (trace (extractText (sampleEnv [] []) sampleXlsx)) /\
  outcome (extractText (sampleEnv [] []) sampleXlsx) <> Thrown UnsupportedFormat.
Proof.
  split; [vm_compute; reflexivity|].
  split; [vm_compute; reflexivity|].
  split; [vm_compute; left; reflexivity|].
  vm_compute. discriminate.
Qed.

(** ** The endpoint *)

Section EndpointFacts.

Variable env : Env.

Lemma trace_bind {A B} (m : M A) (f : A -> M B) :
  trace (bind m f) =
  trace m ++ match outcome m with
             | Returned a => trace (f a)
             | _ => []
             end.
Proof.
  destruct m as [t [a|e|]]; unfold bind, trace, outcome; cbn [fst snd].
  - destruct (f a); reflexivity.
  - rewrite app_nil_r; reflexivity.
  - rewrite app_nil_r; reflexivity.
Qed.

Lemma outcome_bind {A B} (m : M A) (f : A -> M B) :
  outcome (bind m f) =
  match outcome m with
  | Returned a => outcome (f a)
  | Thrown e => Thrown e
  | Diverged => Diverged
  end.
Proof.
  destruct m as [t [a|e|]]; unfold bind, outcome; cbn [fst snd];
    [destruct (f a)|..]; reflexivity.
Qed.

Lemma trace_tryCatch {A} (m : M A) h :
  trace (tryCatch m h) =
  trace m ++ match outcome m with
             | Thrown e => trace (h e)
             | _ => []
             end.
Proof.
  destruct m as [t [a|e|]]; unfold tryCatch, trace, outcome; cbn [fst snd].
  - rewrite app_nil_r; reflexivity.
  - destruct (h e); reflexivity.
  - rewrite app_nil_r; reflexivity.
Qed.

Lemma outcome_tryCatch {A} (m : M A) h :
  outcome (tryCatch m h) =
  match outcome m with
  | Thrown e => outcome (h e)
  | other => other
  end.
Proof.
  destruct m as [t [a|e|]]; unfold tryCatch, outcome; cbn [fst snd];
    [|destruct (h e)|]; reflexivity.
Qed.

Lemma existsb_parse_app t1 t2 :
  existsb isParseEvent (t1 ++ t2)
  = existsb isParseEvent t1 || existsb isParseEvent t2.
Proof. apply existsb_app. Qed.

Lemma ocr_events_no_parse t :
  forallb isOcrEvent t = true -> existsb isParseEvent t = false.
Proof.
  induction t as [|e t IH]; [reflexivity|].
  simpl. intros H. apply andb_prop in H. destruct H as [H1 H2].
  rewrite (IH H2). destruct e; try discriminate; reflexivity.
Qed.

Lemma pdfParse_events_no_parse t :
  forallb isPdfParseEvent t = true -> existsb isParseEvent t = false.
Proof.
  induction t as [|e t IH]; [reflexivity|].
  simpl. intros H. apply andb_prop in H. destruct H as [H1 H2].
  rewrite (IH H2). destruct e; try discriminate; reflexivity.
Qed.

Lemma dispatch_no_parse file :
  existsb isParseEvent (trace (dispatch env file)) = false.
Proof.
  rewrite dispatch_branches.
  destruct (isPdfMime (mimetype file)).
  - destruct (extractPdf_cases env (buffer file))
      as [t1 [native [_ [H2 [[_ [t2 [ocr [_ [H4 H]]]]]|[_ H]]]]]];
      rewrite H; cbn [trace fst].
    + rewrite existsb_parse_app, (pdfParse_events_no_parse _ H2).
      simpl. apply ocr_events_no_parse. exact H4.
    + apply pdfParse_events_no_parse. exact H2.
  - destruct (isWordMime (mimetype file)).
    + destruct (extractWord_cases env (buffer file)) as [[v H]|[t [H [Ht _]]]];
        rewrite H; [reflexivity|].
      destruct Ht as [->| ->]; reflexivity.
    + destruct (isImageMime (mimetype file)); [|reflexivity].
      destruct (extractImage_shape env (buffer file)) as [[v H]|H];
        rewrite H; reflexivity.
Qed.

Lemma extractText_trace file :
  trace (extractText env file) = trace (dispatch env file).
Proof.
  unfold extractText. rewrite trace_bind.
  destruct (outcome (dispatch env file)) as [text| |]; try apply app_nil_r.
  destruct (isBlank text); apply app_nil_r.
Qed.

Lemma uniqueTitle_no_parse fuel userId base :
  forall title slug counter,
    existsb isParseEvent
      (trace (uniqueTitle env fuel userId base title slug counter)) = false.
Proof.
  induction fuel as [|fuel IH]; intros title slug counter; [reflexivity|].
  cbn [uniqueTitle]. rewrite trace_bind. cbn [emit trace outcome fst snd app].
  cbn [existsb isParseEvent orb].
  destruct (prismaFindFirst env userId slug) as [[|]|]; [apply IH|reflexivity..].
Qed.

Lemma storeResume_no_parse fuel userId file text :
  existsb isParseEvent (trace (storeResume env fuel userId file text)) = false.
Proof.
  unfold storeResume. rewrite trace_bind, existsb_parse_app, uniqueTitle_no_parse.
  cbn [orb].
  destruct (outcome (uniqueTitle _ _ _ _ _ _ _)) as [ts| |]; try reflexivity.
  rewrite trace_bind. cbn [emit trace outcome fst snd app existsb isParseEvent orb].
  destruct (prismaCreate env _); reflexivity.
Qed.

Lemma importFromFile_no_parse fuel userId file :
  existsb isParseEvent (trace (importFromFile env fuel userId file)) = false.
Proof.
  unfold importFromFile.
  rewrite trace_bind, existsb_parse_app, extractText_trace, dispatch_no_parse.
  cbn [orb].
  destruct (outcome (extractText env file)); try reflexivity.
  apply storeResume_no_parse.
Qed.

(** The endpoint on an upload that is not an image. *)
Lemma importFile_other fuel userId f :
  isImageMime (mimetype f) = false ->
  importFile env fuel userId (Some f) =
    tryCatch
      (bind (importFromFile env fuel userId f)
            (fun resume => ret (StoredResume resume)))
      (fun error => throw (InternalServerErrorException error)).
Proof.
  intros H. unfold importFile. unfold isImageMime in H. rewrite H. reflexivity.
Qed.

Lemma importFile_image fuel userId f :
  isImageMime (mimetype f) = true ->
  (forall text,
     outcome (recognizeImageBuffer env (buffer f)) = Returned text ->
     importFile env fuel userId (Some f) =
       ([EvRecognize (buffer f); EvParse text],
        Returned (TextAndParsed text (parse text)))) /\
  (forall e,
     outcome (recognizeImageBuffer env (buffer f)) = Thrown e ->
     importFile env fuel userId (Some f) =
       ([EvRecognize (buffer f)], Thrown (InternalServerErrorException e))).
Proof.
  intros H. unfold importFile. unfold isImageMime in H. rewrite H.
  rewrite (recognize_pair env (buffer f)).
  split; intros x Hx; cbn [outcome snd] in Hx; rewrite Hx; reflexivity.
Qed.

(** The slug loop, run: the first [k] candidates are taken and the next
    one is not. *)
Lemma uniqueTitle_run userId base k :
  prismaFindFirst env userId (slugify env (candidateTitle base k)) <> Some true ->
  forall d j fuel,
    k = j + d -> d < fuel ->
    (forall i, j <= i -> i < k ->
       prismaFindFirst env userId (slugify env (candidateTitle base i)) = Some true) ->
    uniqueTitle env fuel userId base (candidateTitle base j)
      (slugify env (candidateTitle base j)) (S j)
    = (map (fun i => EvFindFirst userId (slugify env (candidateTitle base i)))
           (seq j (S d)),
       Returned (candidateTitle base k, slugify env (candidateTitle base k))).
Proof.
  intros Hfree. induction d as [|d IH]; intros j fuel Hk Hf Htaken;
    (destruct fuel as [|fuel]; [lia|]); cbn [uniqueTitle].
  - rewrite Nat.add_0_r in Hk. subst j.
    destruct (prismaFindFirst env userId (slugify env (candidateTitle base k)))
      as [[|]|]; [congruence|reflexivity..].
  - rewrite (Htaken j) by lia.
    specialize (IH (S j) fuel).
    change (base ++ u " (" ++ decimal (S j) ++ u ")") with (candidateTitle base (S j)).
    rewrite IH; [reflexivity|lia|lia|].
    intros i Hi Hi'. apply Htaken; lia.
Qed.

(** What a returned [storeResume] has done. *)
Lemma storeResume_returned fuel userId file text resume :
  outcome (storeResume env fuel userId file text) = Returned resume ->
  exists row,
    In (EvCreate row) (trace (storeResume env fuel userId file text)) /\
    row_headline row = slice0 1200 (firstParagraph (trim text)) /\
    prismaCreate env row = Some resume.
Proof.
  unfold storeResume. cbn [nullish]. rewrite outcome_bind, trace_bind.
  destruct (outcome (uniqueTitle env fuel userId (stripExtension (originalname file))
                       (stripExtension (originalname file))
                       (slugify env (stripExtension (originalname file))) 1))
    as [ts| |]; try discriminate.
  rewrite outcome_bind, trace_bind. cbn [emit trace outcome fst snd app].
  destruct (prismaCreate env _) as [created|] eqn:E; [|discriminate].
  cbn [ret outcome snd]. intros H. injection H as <-.
  eexists. split; [apply in_or_app; right; left; reflexivity|].
  split; [reflexivity|exact E].
Qed.

End EndpointFacts.



(** C1, as amended.  For an image for which OCR returns a text, the
    endpoint passes that text to the parser and answers with the text and
    the ParsedResume built from it.  For every other upload (PDF, Word) the
    parser is never called: every answer is the record that the database
    returned for a created row whose headline is the first paragraph of the
    trimmed extracted text cut to 1200 code units; and there is such an
    answer whenever the extraction returns a text, the slug loop finds a
    free candidate within its rounds and the record is created. *)
Theorem importFile_parser_use env fuel userId f :
  (isImageMime (mimetype f) = true ->
   forall text,
     outcome (recognizeImageBuffer env (buffer f)) = Returned text ->
     In (EvParse text) (trace (importFile env fuel userId (Some f))) /\
     outcome (importFile env fuel userId (Some f))
       = Returned (TextAndParsed text (parse text))) /\
  (isImageMime (mimetype f) = false ->
     existsb isParseEvent (trace (importFile env fuel userId (Some f))) = false /\
     (forall r,
        outcome (importFile env fuel userId (Some f)) = Returned r ->
        exists text row resume,
          outcome (extractText env f) = Returned text /\
          In (EvCreate row) (trace (importFile env fuel userId (Some f))) /\
          row_headline row = slice0 1200 (firstParagraph (trim text)) /\
          prismaCreate env row = Some resume /\
          r = StoredResume resume) /\
     (forall text k resume,
        outcome (extractText env f) = Returned text ->
        (forall i, i < k ->
           prismaFindFirst env userId
             (slugify env (candidateTitle (stripExtension (originalname f)) i))
           = Some true) ->
        prismaFindFirst env userId
          (slugify env (candidateTitle (stripExtension (originalname f)) k))
          <> Some true ->
        k < fuel ->
        prismaCreate env
          (mkRow userId "private" (slice0 1200 (firstParagraph (trim text)))
                 (candidateTitle (stripExtension (originalname f)) k)
                 (slugify env (candidateTitle (stripExtension (originalname f)) k)))
          = Some resume ->
        outcome (importFile env fuel userId (Some f))
          = Returned (StoredResume resume))).
Proof.
  split.
  - intros H text Ht.
    destruct (importFile_image env fuel userId f H) as [H1 _].
    rewrite (H1 text Ht). cbn [trace outcome fst snd].
    split; [right; left|]; reflexivity.
  - intros H. rewrite (importFile_other env fuel userId f H).
    assert (T : trace
                  (tryCatch
                     (bind (importFromFile env fuel userId f)
                           (fun resume => ret (StoredResume resume)))
                     (fun error => throw (InternalServerErrorException error)))
                = trace (importFromFile env fuel userId f)).
    { rewrite trace_tryCatch, trace_bind, outcome_bind.
      destruct (outcome (importFromFile env fuel userId f));
        cbn [ret throw trace outcome fst snd]; rewrite !app_nil_r; reflexivity. }
    rewrite T.
    split; [apply importFromFile_no_parse|]. split.
    + intros r. rewrite outcome_tryCatch, outcome_bind.
      destruct (outcome (importFromFile env fuel userId f)) as [resume| |] eqn:E;
        cbn [ret throw outcome snd]; intros Hr; try discriminate.
      injection Hr as <-.
      unfold importFromFile in E. rewrite outcome_bind in E.
      destruct (outcome (extractText env f)) as [text| |] eqn:Et; try discriminate.
      destruct (storeResume_returned env fuel userId f text resume E)
        as [row [Hin [Hh Hc]]].
      exists text, row, resume. split; [reflexivity|].
      split; [|auto].
      unfold importFromFile. rewrite trace_bind, Et.
      apply in_or_app. right. exact Hin.
    + intros text k resume Ht Htaken Hfree Hfuel Hcreate.
      rewrite outcome_tryCatch, outcome_bind. unfold importFromFile.
      rewrite outcome_bind, Ht. unfold storeResume. cbn [nullish].
      assert (R := uniqueTitle_run env userId (stripExtension (originalname f)) k
                     Hfree k 0 fuel eq_refl Hfuel
                     (fun i _ Hi => Htaken i Hi)).
      change (candidateTitle (stripExtension (originalname f)) 0)
        with (stripExtension (originalname f)) in R.
      rewrite R.
      rewrite outcome_bind. cbn [outcome fst snd].
      rewrite outcome_bind. cbn [emit outcome snd].
      rewrite Hcreate. reflexivity.
Qed.

(** An image upload is parsed at once; a text PDF is stored. *)
Lemma importFile_parser_use_witness :
  (In (EvParse (buffer sampleImage))
      (trace (importFile (sampleEnv [] []) 1 (u "user") (Some sampleImage))) /\
   outcome (importFile (sampleEnv [] []) 1 (u "user") (Some sampleImage))
     = Returned (TextAndParsed (buffer sampleImage) (parse (buffer sampleImage)))) /\
  existsb isParseEvent
    (trace (importFile (sampleEnv nativeLong []) 1 (u "user") (Some samplePdf)))
    = false /\
  outcome (importFile (sampleEnv nativeLong []) 1 (u "user") (Some samplePdf))
    = Returned (StoredResume
                  (mkRow (u "user") "private" (u "Jane Doe") (u "cv") (u "cv"))).
Proof.
  split.
  - apply (proj1 (importFile_parser_use (sampleEnv [] []) 1 (u "user") sampleImage)
             eq_refl (buffer sampleImage)).
    vm_compute. reflexivity.
  - destruct (proj2 (importFile_parser_use (sampleEnv nativeLong []) 1 (u "user")
                       samplePdf) eq_refl) as [H1 [_ H3]].
    split; [exact H1|].
    apply (H3 nativeLong 0).
    + vm_compute. reflexivity.
    + intros i Hi. lia.
    + vm_compute. discriminate.
    + lia.
    + vm_compute. reflexivity.
Defined.

(** C1, as stated, fails: a PDF whose text is extracted is stored, not
    parsed; the answer holds no ParsedResume and the parser is not called. *)
Lemma pdf_import_is_not_parsed :
  outcome (extractText (sampleEnv nativeLong []) samplePdf) = Returned nativeLong /\
  outcome (importFile (sampleEnv nativeLong []) 1 (u "user") (Some samplePdf))
    = Returned (StoredResume
                  (mkRow (u "user") "private" (u "Jane Doe") (u "cv") (u "cv"))) /\
  ~ deliversParsed (importFile (sampleEnv nativeLong []) 1 (u "user") (Some samplePdf)).
Proof.
  split; [vm_compute; reflexivity|].
  split; [vm_compute; reflexivity|].
  intros [text [_ H]]. vm_compute in H. discriminate.
Qed.

(** ** Page order in the OCR fallback *)

Section PageOrder.

Variable env : Env.

Lemma digits_of_uint d :
  forallb isDigit (u (NilEmpty.string_of_uint d)) = true.
Proof. induction d; simpl; try reflexivity; exact IHd. Qed.

Lemma digit_not_ws c : isDigit c = true -> isWs c = false.
Proof.
  unfold isDigit, in_range. intros H. apply andb_prop in H.
  destruct H as [H1 H2]. apply N.leb_le in H1, H2.
  unfold isWs, in_range, cu_eqb.
  repeat (apply orb_false_iff; split);
    try (apply N.eqb_neq; lia);
    apply andb_false_iff; [right|left]; apply N.leb_gt; lia.
Qed.

Lemma nonWs_lastOk s : forallb (fun c => negb (isWs c)) s = true -> lastOk s = true.
Proof.
  induction s as [|c s IH]; [reflexivity|].
  simpl. intros H. apply andb_prop in H. destruct H as [H1 H2].
  destruct s; [exact H1|]. apply IH. exact H2.
Qed.

Lemma pageText_shape i :
  pageText i <> [] /\ truthy (pageText i) = true /\
  headOk (pageText i) = true /\ lastOk (pageText i) = true.
Proof.
  split; [discriminate|]. split; [reflexivity|]. split; [reflexivity|].
  apply nonWs_lastOk. unfold pageText. rewrite forallb_app.
  apply andb_true_iff. split; [reflexivity|].
  unfold decimal. generalize (digits_of_uint (Nat.to_uint i)).
  generalize (u (NilEmpty.string_of_uint (Nat.to_uint i))).
  intros s. induction s as [|c s IH]; [reflexivity|].
  simpl. intros H. apply andb_prop in H. destruct H as [H1 H2].
  rewrite (digit_not_ws c H1), (IH H2). reflexivity.
Qed.

(** The loop over the pages appends each page's text and a line feed, in
    the order of the pages. *)
Lemma ocrPages_indexed results :
  forall k acc,
    (forall i, i < List.length results ->
       exists b, pageImage (nth i results None) = Some b /\
                 outcome (recognizeImageBuffer env (bufferFromBase64 env b))
                   = Returned (pageText (k + i))) ->
    outcome (ocrPages env results acc)
    = Returned (acc ++ List.concat (map (fun i => pageText i ++ [LF])
                                   (seq k (List.length results)))).
Proof.
  induction results as [|r results IH]; intros k acc H.
  - simpl. rewrite app_nil_r. reflexivity.
  - destruct (H 0) as [b [Hb Hr]]; [simpl; lia|].
    simpl nth in Hb. rewrite Nat.add_0_r in Hr.
    cbn [ocrPages]. rewrite Hb.
    rewrite (recognize_pair env (bufferFromBase64 env b)), Hr, bind_returned.
    destruct (pageText_shape k) as [_ [Htr _]]. rewrite Htr.
    cbn [ret trace outcome fst snd]. rewrite tryCatch_returned, bind_returned.
    cbn [outcome snd].
    rewrite (IH (S k) (acc ++ pageText k ++ [LF])).
    + cbn [List.length seq map List.concat]. rewrite <- !app_assoc. reflexivity.
    + intros i Hi. destruct (H (S i)) as [b' [Hb' Hr']]; [simpl; lia|].
      exists b'. simpl nth in Hb'. rewrite Nat.add_succ_r in Hr'. auto.
Qed.

Lemma concat_lines_join (l : list jsstring) :
  l <> [] ->
  List.concat (map (fun p => p ++ [LF]) l) = join [LF] l ++ [LF].
Proof.
  induction l as [|p l IH]; [congruence|]. intros _.
  destruct l as [|q l].
  - simpl. rewrite app_nil_r. reflexivity.
  - change (List.concat (map (fun p => p ++ [LF]) (p :: q :: l)))
      with ((p ++ [LF]) ++ List.concat (map (fun p => p ++ [LF]) (q :: l))).
    rewrite IH by discriminate.
    change (join [LF] (p :: q :: l)) with (p ++ [LF] ++ join [LF] (q :: l)).
    rewrite <- !app_assoc. reflexivity.
Qed.

Lemma join_pages_ends k n :
  join [LF] (map pageText (seq k (S n))) <> [] /\
  headOk (join [LF] (map pageText (seq k (S n)))) = true /\
  lastOk (join [LF] (map pageText (seq k (S n)))) = true.
Proof.
  revert k. induction n as [|n IH]; intros k.
  - simpl. destruct (pageText_shape k) as [H1 [_ [H2 H3]]]. auto.
  - destruct (IH (S k)) as [H1 [_ H3]].
    change (join [LF] (map pageText (seq k (S (S n)))))
      with (pageText k ++ [LF] ++ join [LF] (map pageText (seq (S k) (S n)))).
    split; [discriminate|]. split; [reflexivity|].
    rewrite lastOk_app.
    + rewrite lastOk_app; [exact H3|exact H1].
    + simpl. discriminate.
Qed.

Lemma trim_trailing_lf x :
  x <> [] -> headOk x = true -> lastOk x = true -> trim (x ++ [LF]) = x.
Proof.
  intros Hx Hh Hl. unfold trim, trimStart, trimEnd.
  destruct x as [|c r]; [congruence|].
  simpl in Hh. apply negb_true_iff in Hh.
  change ((c :: r) ++ [LF]) with (c :: (r ++ [LF])).
  rewrite (dropWhile_fixed _ _ _ Hh).
  change (c :: (r ++ [LF])) with ((c :: r) ++ [LF]).
  destruct (lastOk_rev_head (c :: r)) as [d [t [E Hd]]]; [discriminate|exact Hl|].
  rewrite rev_app_distr, E.
  change (rev [LF] ++ d :: t) with (LF :: d :: t).
  change (dropWhile isWs (LF :: d :: t)) with (dropWhile isWs (d :: t)).
  rewrite (dropWhile_fixed _ _ _ Hd), <- E. apply rev_involutive.
Qed.

End PageOrder.

(** C4.  For a PDF whose trimmed native text is shorter than 20 and whose
    rasterizer yields N pages (N at least 1), page [i] being recognised as
    "page" followed by [i], the extracted text is "page0\npage1\n..." up
    to page N-1: the texts of the pages in index order, separated by line
    feeds. *)
Theorem ocr_pages_in_order env file bulk results n :
  isPdfMime (mimetype file) = true ->
  (exists native,
     outcome (pdfNativeText env (buffer file)) = Returned native /\
     List.length (trim native) < 20) ->
  pdf2picLib env = Some bulk ->
  bulk (buffer file) = Some (Some results) ->
  List.length results = n -> 0 < n ->
  (forall i, i < n ->
     exists b, pageImage (nth i results None) = Some b /\
               outcome (recognizeImageBuffer env (bufferFromBase64 env b))
                 = Returned (pageText i)) ->
  outcome (extractText env file)
  = Returned (join [LF] (map pageText (seq 0 n))).
Proof.
  intros Hpdf [native [Hn Hlt]] Hlib Hbulk Hlen Hpos Hpages.
  destruct n as [|n]; [lia|].
  destruct (join_pages_ends 0 n) as [J1 [J2 J3]].
  assert (Hocr : outcome (ocrPdfBuffer env (buffer file))
                 = Returned (join [LF] (map pageText (seq 0 (S n))))).
  { unfold ocrPdfBuffer. rewrite outcome_bind. cbn [emit outcome snd].
    rewrite outcome_tryCatch, Hlib, outcome_bind. cbn [emit outcome snd].
    rewrite Hbulk.
    destruct results as [|r results]; [discriminate|].
    rewrite outcome_bind.
    rewrite (ocrPages_indexed env (r :: results) 0 []) by (rewrite Hlen; exact Hpages).
    cbn [ret outcome snd app]. rewrite Hlen.
    rewrite <- (map_map pageText (fun p => p ++ [LF])).
    rewrite concat_lines_join by discriminate.
    rewrite (trim_trailing_lf _ J1 J2 J3). reflexivity. }
  assert (D : dispatch env file = extractPdf env (buffer file))
    by (rewrite dispatch_branches, Hpdf; reflexivity).
  destruct (extractPdf_cases env (buffer file))
    as [t1 [native' [H1 [_ [[_ [t2 [ocr [H3 [_ H5]]]]]|[Hge _]]]]]];
    rewrite H1 in Hn; cbn [outcome snd] in Hn;
    assert (En : native' = native) by congruence; subst native'; [|lia].
  rewrite H3 in Hocr. cbn [outcome snd] in Hocr.
  assert (E : ocr = join [LF] (map pageText (seq 0 (S n)))) by congruence.
  subst ocr. clear Hocr.
  assert (Htr : truthy (join [LF] (map pageText (seq 0 (S n)))) = true).
  { destruct (join [LF] (map pageText (seq 0 (S n)))); [congruence|reflexivity]. }
  rewrite Htr in H5. rewrite H5 in D.
  rewrite (extractText_of_returned env file _ _ D). cbn [outcome snd].
  replace (isBlank (join [LF] (map pageText (seq 0 (S n))))) with false; [reflexivity|].
  symmetry. unfold isBlank. rewrite Htr, (trim_fixed _ J2 J3), Htr. reflexivity.
Qed.

(** A scanned PDF of two pages. *)
Lemma ocr_pages_in_order_witness :
  outcome (extractText (sampleEnv [] twoPages) samplePdf)
  = Returned (u "page0" ++ [LF] ++ u "page1").
Proof.
  apply (ocr_pages_in_order (sampleEnv [] twoPages) samplePdf
           (fun _ => Some (Some twoPages)) twoPages 2).
  - vm_compute. reflexivity.
  - exists []. split; [reflexivity|]. vm_compute. lia.
  - reflexivity.
  - reflexivity.
  - reflexivity.
  - lia.
  - intros i Hi.
    destruct i as [|[|i]]; [exists (u "page0")|exists (u "page1")|lia];
      split; vm_compute; reflexivity.
Defined.

(** ** The matcher accepts only what the pattern describes *)

Section MatcherSoundness.

Lemma rep_loop_sound a lo hi greedy k res :
  (forall st k' res', rmatch a st k' = Some res' ->
                      exists st', Matches a st st' /\ k' st' = Some res') ->
  forall fuel count st,
    within hi count ->
    rep_loop (rmatch a) lo hi greedy k fuel count st = Some res ->
    exists n st', Iter (Matches a) n st st' /\
                  lo <= count + n /\ within hi (count + n) /\
                  k st' = Some res.
Proof.
  intros Ha. induction fuel as [|fuel IH]; intros count st Hc H; [discriminate|].
  cbn [rep_loop] in H.
  assert (Again :
    (if reached hi count then None
     else rmatch a st (fun st1 =>
            if (lo <=? count) && (m_pos st1 =? m_pos st) then None
            else rep_loop (rmatch a) lo hi greedy k fuel (S count) st1)) = Some res ->
    exists n st', Iter (Matches a) n st st' /\
                  lo <= count + n /\ within hi (count + n) /\ k st' = Some res).
  { destruct (reached hi count) eqn:Er; [discriminate|]. intros Hb.
    destruct (Ha _ _ _ Hb) as [st1 [Hm Hk]].
    destruct ((lo <=? count) && (m_pos st1 =? m_pos st)); [discriminate|].
    assert (Hc' : within hi (S count)).
    { destruct hi as [h|]; [|exact I]. simpl in *. apply Nat.leb_gt in Er. lia. }
    destruct (IH (S count) st1 Hc' Hk) as [n [st' [Hi [Hlo [Hhi Hres]]]]].
    exists (S n), st'. rewrite Nat.add_succ_r.
    split; [exact (Iter_S _ _ _ _ _ Hm Hi)|]. auto. }
  assert (Stop : lo <= count -> k st = Some res ->
    exists n st', Iter (Matches a) n st st' /\
                  lo <= count + n /\ within hi (count + n) /\ k st' = Some res).
  { intros Hlo Hk. exists 0, st. rewrite Nat.add_0_r.
    split; [apply Iter_0|]. auto. }
  set (ag := if reached hi count then None
             else rmatch a st (fun st1 =>
                    if (lo <=? count) && (m_pos st1 =? m_pos st) then None
                    else rep_loop (rmatch a) lo hi greedy k fuel (S count) st1))
    in *.
  destruct (count <? lo) eqn:El; [exact (Again H)|].
  apply Nat.ltb_ge in El.
  destruct greedy.
  - destruct ag as [r0|] eqn:E.
    + apply Again. exact H.
    + exact (Stop El H).
  - destruct (k st) eqn:Ek.
    + exact (Stop El H).
    + exact (Again H).
Qed.

(** Whenever the matcher succeeds, the pattern took the match to a state
    that the continuation accepted. *)
Lemma rmatch_sound r :
  forall st k res,
    rmatch r st k = Some res ->
    exists st', Matches r st st' /\ k st' = Some res.
Proof.
  induction r as [|p| | |a IHa b IHb|a IHa b IHb|a IHa lo hi greedy|i a IHa];
    intros st k res H; cbn [rmatch] in H.
  - exists st. split; [constructor|exact H].
  - destruct (m_rest st) as [|c t] eqn:E; [discriminate|].
    destruct (p c) eqn:Ep; [|discriminate].
    eexists. split; [exact (M_Chr p st c t E Ep)|exact H].
  - destruct (m_pos st =? 0) eqn:E; [|discriminate].
    apply Nat.eqb_eq in E. exists st. split; [constructor; exact E|exact H].
  - destruct (m_rest st) eqn:E; [|discriminate].
    exists st. split; [constructor; exact E|exact H].
  - destruct (IHa _ _ _ H) as [st1 [H1 H2]].
    destruct (IHb _ _ _ H2) as [st2 [H3 H4]].
    exists st2. split; [exact (M_Seq _ _ _ _ _ H1 H3)|exact H4].
  - destruct (rmatch a st k) eqn:E.
    + injection H as ->. destruct (IHa _ _ _ E) as [st1 [H1 H2]].
      exists st1. split; [apply M_AltL; exact H1|exact H2].
    + destruct (IHb _ _ _ H) as [st1 [H1 H2]].
      exists st1. split; [apply M_AltR; exact H1|exact H2].
  - assert (W0 : within hi 0) by (destruct hi; simpl; [lia|exact I]).
    destruct (rep_loop_sound a lo hi greedy k res IHa _ 0 st W0 H)
      as [n [st' [Hi [Hlo [Hhi Hk]]]]].
    exists st'. split; [|exact Hk].
    exact (M_Rep a lo hi greedy n st st' Hi Hlo Hhi).
  - destruct (IHa _ _ _ H) as [st1 [H1 H2]].
    eexists. split; [exact (M_Group i a st st1 H1)|exact H2].
Qed.

(** A search that succeeds found the pattern somewhere in the input. *)
Lemma searchFrom_sound r :
  forall rest pos m,
    searchFrom r pos rest = Some m ->
    exists before here st',
      rest = before ++ here /\
      r_index m = pos + List.length before /\
      Matches r (MState (r_index m) here []) st' /\
      r_end m = m_pos st' /\ r_caps m = m_caps st' /\
      r_text m = firstn (m_pos st' - r_index m) here.
Proof.
  induction rest as [|c rest IH]; intros pos m H; cbn [searchFrom] in H.
  - destruct (rmatch r (MState pos [] []) (fun st => Some st)) as [st|] eqn:E;
      [|discriminate].
    injection H as <-. destruct (rmatch_sound r _ _ _ E) as [st' [H1 H2]].
    injection H2 as ->.
    exists [], [], st. cbn [r_index r_end r_caps r_text app List.length].
    rewrite Nat.add_0_r. auto 10.
  - destruct (rmatch r (MState pos (c :: rest) []) (fun st => Some st)) as [st|] eqn:E.
    + injection H as <-. destruct (rmatch_sound r _ _ _ E) as [st' [H1 H2]].
      injection H2 as ->.
      exists [], (c :: rest), st. cbn [r_index r_end r_caps r_text app List.length].
      rewrite Nat.add_0_r. auto 10.
    + destruct (IH _ _ H) as [before [here [st' [H1 [H2 H3]]]]].
      exists (c :: before), here, st'. cbn [app List.length].
      split; [rewrite H1; reflexivity|]. split; [lia|exact H3].
Qed.

(** Repetitions of a character class read a word of that class. *)
Lemma iter_class p n :
  forall st st',
    Iter (Matches (Chr p)) n st st' ->
    exists w, reads st w st' /\ List.length w = n /\ forallb p w = true /\
              m_caps st' = m_caps st.
Proof.
  induction n as [|n IH]; intros st st' H; inversion H; subst.
  - exists []. unfold reads. cbn. rewrite Nat.add_0_r. auto.
  - match goal with Hm : Matches (Chr p) _ _ |- _ => inversion Hm; subst end.
    match goal with Hi : Iter _ n _ _ |- _ =>
      destruct (IH _ _ Hi) as [w [[R1 R2] [Hl [Hp Hc]]]] end.
    cbn [m_rest m_pos m_caps] in *.
    exists (c :: w). unfold reads. cbn [app List.length forallb].
    repeat split; try congruence; try lia.
    match goal with Hc' : p c = true |- _ => rewrite Hc', Hp; reflexivity end.
Qed.

Lemma rep_class p lo hi greedy st st' :
  Matches (Rep (Chr p) lo hi greedy) st st' ->
  exists w, reads st w st' /\ lo <= List.length w /\ within hi (List.length w) /\
            forallb p w = true /\ m_caps st' = m_caps st.
Proof.
  intros H. inversion H; subst.
  match goal with Hi : Iter _ _ _ _ |- _ =>
    destruct (iter_class p _ _ _ Hi) as [w [Hr [Hl [Hp Hc]]]] end.
  exists w. rewrite Hl. auto.
Qed.

Lemma chr_reads p st st' :
  Matches (Chr p) st st' ->
  exists c, reads st [c] st' /\ p c = true /\ m_caps st' = m_caps st.
Proof.
  intros H. inversion H; subst. exists c. unfold reads.
  cbn [m_rest m_pos m_caps app List.length]. repeat split; auto; lia.
Qed.

Lemma reads_trans st1 w1 st2 w2 st3 :
  reads st1 w1 st2 -> reads st2 w2 st3 -> reads st1 (w1 ++ w2) st3.
Proof.
  unfold reads. intros [H1 H2] [H3 H4]. rewrite H1, H3, H4, H2, length_app.
  split; [apply app_assoc|lia].
Qed.

Lemma reads_text st w st' :
  reads st w st' -> firstn (m_pos st' - m_pos st) (m_rest st) = w.
Proof.
  intros [H1 H2]. rewrite H1, H2.
  replace (m_pos st + List.length w - m_pos st) with (List.length w + 0) by lia.
  rewrite firstn_app_2. cbn. apply app_nil_r.
Qed.

End MatcherSoundness.

(** ** Lines *)

Section LineFacts.

Lemma dropWhile_app p x z :
  dropWhile p (x ++ z) =
  match dropWhile p x with
  | [] => dropWhile p z
  | y => y ++ z
  end.
Proof.
  induction x as [|c x IH]; [reflexivity|].
  simpl. destruct (p c); [exact IH|reflexivity].
Qed.

(** White space at the end of a string does not survive [trim]. *)
Lemma trim_snoc_ws x c : isWs c = true -> trim (x ++ [c]) = trim x.
Proof.
  intros Hc. unfold trim, trimStart. rewrite dropWhile_app.
  destruct (dropWhile isWs x) as [|d y] eqn:E.
  - simpl. rewrite Hc. reflexivity.
  - unfold trimEnd. rewrite rev_app_distr. simpl rev at 1.
    cbn [app dropWhile]. rewrite Hc. reflexivity.
Qed.

(** A carriage return before a line feed makes no difference once the
    pieces are trimmed. *)
Lemma splitLines_as_splitOn :
  forall n s cur,
    List.length s <= n ->
    map trim (splitLinesAux s cur) = map trim (splitOnAux isLF s cur).
Proof.
  induction n as [|n IH]; intros s cur Hn.
  - destruct s; [reflexivity|simpl in Hn; lia].
  - destruct s as [|c r]; [reflexivity|]. simpl in Hn.
    cbn [splitLinesAux splitOnAux]. unfold isLF at 1.
    destruct (cu_eqb c LF) eqn:E1.
    + cbn [map]. f_equal. apply IH. lia.
    + destruct (cu_eqb c CR) eqn:E2; [|apply IH; lia].
      destruct r as [|d r']; [reflexivity|].
      destruct (cu_eqb d LF) eqn:E3; [|apply IH; simpl in *; lia].
      cbn [splitOnAux]. unfold isLF at 1. rewrite E3. cbn [map].
      f_equal.
      * cbn [rev]. symmetry. apply trim_snoc_ws.
        unfold cu_eqb in E2. apply N.eqb_eq in E2. subst c. reflexivity.
      * apply IH. simpl in Hn. lia.
Qed.

Lemma linesOf_as_splitOn text :
  linesOf text = filter truthy (map trim (splitOn isLF text)).
Proof.
  unfold linesOf, splitLines, splitOn.
  rewrite (splitLines_as_splitOn (List.length text)); [reflexivity|lia].
Qed.

Lemma splitOnAux_sep p a c b :
  p c = true ->
  forall cur,
    splitOnAux p (a ++ c :: b) cur = splitOnAux p a cur ++ splitOnAux p b [].
Proof.
  intros Hc. induction a as [|x a IH]; intros cur; simpl.
  - rewrite Hc. reflexivity.
  - destruct (p x); [rewrite IH; reflexivity|apply IH].
Qed.

Lemma splitOnAux_snoc_ws p a c :
  p c = false -> isWs c = true ->
  forall cur,
    map trim (splitOnAux p (a ++ [c]) cur) = map trim (splitOnAux p a cur).
Proof.
  intros Hp Hc. induction a as [|x a IH]; intros cur; simpl.
  - rewrite Hp. simpl. f_equal. apply trim_snoc_ws. exact Hc.
  - destruct (p x); [simpl; f_equal; apply IH|apply IH].
Qed.

Lemma linesOf_lf a b : linesOf (a ++ LF :: b) = linesOf a ++ linesOf b.
Proof.
  rewrite !linesOf_as_splitOn. unfold splitOn.
  rewrite splitOnAux_sep by reflexivity.
  rewrite map_app, filter_app. reflexivity.
Qed.

Lemma linesOf_snoc_cr a : linesOf (a ++ [CR]) = linesOf a.
Proof.
  rewrite !linesOf_as_splitOn. unfold splitOn.
  rewrite splitOnAux_snoc_ws by reflexivity. reflexivity.
Qed.

Lemma linesOf_crlf a b : linesOf (a ++ CR :: LF :: b) = linesOf a ++ linesOf b.
Proof.
  change (a ++ CR :: LF :: b) with (a ++ [CR] ++ LF :: b).
  rewrite app_assoc, linesOf_lf, linesOf_snoc_cr. reflexivity.
Qed.

(** The fields that [parse] reads off the lines. *)
Lemma parse_fields_by_lines t1 t2 :
  linesOf t1 = linesOf t2 ->
  name (parse t1) = name (parse t2) /\
  skills (parse t1) = skills (parse t2) /\
  experience (parse t1) = experience (parse t2) /\
  education (parse t1) = education (parse t2).
Proof.
  intros H. unfold parse. cbn [name skills experience education nullish].
  rewrite H. auto.
Qed.

End LineFacts.

(** X1.  The lines of two texts joined by a line feed are the lines of the
    first followed by the lines of the second; the same holds when they are
    joined by a carriage return and a line feed. *)
Theorem linesOf_joined a b :
  linesOf (a ++ [LF] ++ b) = linesOf a ++ linesOf b /\
  linesOf (a ++ [CR; LF] ++ b) = linesOf a ++ linesOf b.
Proof. split; [apply linesOf_lf|apply linesOf_crlf]. Qed.

(** X2.  Line endings and blank lines carry no meaning for the structured
    fields: a text with Windows line endings, or with a run of blank lines
    (possibly holding white space) between two parts, parses to the same
    name, skills, experience and education as the text joined by one line
    feed. *)
Theorem parse_ignores_line_endings a b blank :
  whitespaceOnly blank = true ->
  forall t,
    t = a ++ [CR; LF] ++ b \/ t = a ++ [LF] ++ blank ++ [LF] ++ b ->
    name (parse t) = name (parse (a ++ [LF] ++ b)) /\
    skills (parse t) = skills (parse (a ++ [LF] ++ b)) /\
    experience (parse t) = experience (parse (a ++ [LF] ++ b)) /\
    education (parse t) = education (parse (a ++ [LF] ++ b)).
Proof.
  intros Hb t Ht. apply parse_fields_by_lines.
  destruct Ht as [-> | ->].
  - cbn [app]. rewrite linesOf_crlf, linesOf_lf. reflexivity.
  - cbn [app]. rewrite !linesOf_lf.
    replace (linesOf blank) with (@nil jsstring); [reflexivity|].
    symmetry. rewrite linesOf_as_splitOn.
    assert (G : forall s cur, forallb isWs s = true -> forallb isWs cur = true ->
                filter truthy (map trim (splitOnAux isLF s cur)) = []).
    { induction s as [|c s IH]; intros cur Hs Hc; simpl.
      - replace (trim (rev cur)) with (@nil code_unit); [reflexivity|].
        symmetry. apply trim_nil_iff. unfold whitespaceOnly.
        rewrite forallb_rev. exact Hc.
      - simpl in Hs. apply andb_prop in Hs. destruct Hs as [H1 H2].
        destruct (isLF c).
        + simpl. replace (trim (rev cur)) with (@nil code_unit).
          * simpl. apply IH; [exact H2|reflexivity].
          * symmetry. apply trim_nil_iff. unfold whitespaceOnly.
            rewrite forallb_rev. exact Hc.
        + apply IH; [exact H2|]. simpl. rewrite H1, Hc. reflexivity. }
    apply G; [exact Hb|reflexivity].
Qed.

(** Windows line endings and a blank line on the sample. *)
Lemma parse_ignores_line_endings_witness :
  name (parse (u "John Smith" ++ [CR; LF] ++ u "Software Engineer"))
    = name (parse (u "John Smith" ++ [LF] ++ u "Software Engineer")) /\
  skills (parse (u "John Smith" ++ [LF] ++ u "  " ++ [LF] ++ u "Skills: C"))
    = skills (parse (u "John Smith" ++ [LF] ++ u "Skills: C")).
Proof.
  split.
  - apply (parse_ignores_line_endings (u "John Smith") (u "Software Engineer") []
             eq_refl _ (or_introl eq_refl)).
  - apply (parse_ignores_line_endings (u "John Smith") (u "Skills: C") (u "  ")
             eq_refl _ (or_intror eq_refl)).
Defined.

(** ** Skills *)

Section SkillsFacts.

Lemma splitOnAux_keeps (q p : code_unit -> bool) s :
  forall cur,
    forallb q s = true -> forallb q cur = true ->
    Forall (fun piece => forallb q piece = true) (splitOnAux p s cur).
Proof.
  induction s as [|c s IH]; intros cur Hs Hc; simpl.
  - constructor; [rewrite forallb_rev; exact Hc|constructor].
  - simpl in Hs. apply andb_prop in Hs. destruct Hs as [H1 H2].
    destruct (p c).
    + constructor; [rewrite forallb_rev; exact Hc|]. apply IH; [exact H2|reflexivity].
    + apply IH; [exact H2|]. simpl. rewrite H1, Hc. reflexivity.
Qed.

Lemma splitOnAux_cuts p s :
  forall cur,
    forallb (fun c => negb (p c)) cur = true ->
    Forall (fun piece => forallb (fun c => negb (p c)) piece = true)
           (splitOnAux p s cur).
Proof.
  induction s as [|c s IH]; intros cur Hc; simpl.
  - constructor; [rewrite forallb_rev; exact Hc|constructor].
  - destruct (p c) eqn:E.
    + constructor; [rewrite forallb_rev; exact Hc|]. apply IH. reflexivity.
    + apply IH. simpl. rewrite E, Hc. reflexivity.
Qed.

Lemma join_keeps (q : code_unit -> bool) sep parts :
  forallb q sep = true ->
  Forall (fun piece => forallb q piece = true) parts ->
  forallb q (join sep parts) = true.
Proof.
  intros Hs H. induction H as [|x l Hx Hl IH]; [reflexivity|].
  destruct l as [|y l]; [exact Hx|].
  change (join sep (x :: y :: l)) with (x ++ sep ++ join sep (y :: l)).
  rewrite !forallb_app, Hx, Hs, IH. reflexivity.
Qed.

Lemma trim_keeps (q : code_unit -> bool) s :
  forallb q s = true -> forallb q (trim s) = true.
Proof.
  intros H. unfold trim, trimStart.
  destruct (dropWhile_split isWs s) as [pre [E _]].
  destruct (trimEnd_prefix (dropWhile isWs s)) as [suf E'].
  rewrite E, E', !forallb_app in H.
  apply andb_prop in H. destruct H as [_ H].
  apply andb_prop in H. destruct H as [H _]. exact H.
Qed.

Lemma skipn_Forall {A} (P : A -> Prop) n (l : list A) :
  Forall P l -> Forall P (skipn n l).
Proof.
  revert l; induction n as [|n IH]; intros l H; [exact H|].
  destruct H; [constructor|]. simpl. apply IH. assumption.
Qed.

Lemma skillsParts_clean line s :
  In s (skillsParts line) ->
  forallb (fun c => negb (isSkillsCut c)) s = true.
Proof.
  unfold skillsParts. intros H. apply filter_In in H. destruct H as [H _].
  apply in_map_iff in H. destruct H as [x [<- Hx]].
  set (joined := join (u " ") (skipn 1 (splitOn isSkillsHeadSep line))) in *.
  assert (J : forallb (fun c => negb (isSkillsHeadSep c)) joined = true).
  { apply join_keeps; [reflexivity|]. apply skipn_Forall.
    apply splitOnAux_cuts. reflexivity. }
  assert (A : forallb (fun c => negb (isSkillsHeadSep c)) x = true).
  { pose proof (splitOnAux_keeps (fun c => negb (isSkillsHeadSep c))
                  isSkillsItemSep joined [] J eq_refl) as F.
    rewrite Forall_forall in F. exact (F x Hx). }
  assert (B : forallb (fun c => negb (isSkillsItemSep c)) x = true).
  { pose proof (splitOnAux_cuts isSkillsItemSep joined [] eq_refl) as F.
    rewrite Forall_forall in F. exact (F x Hx). }
  apply trim_keeps. rewrite forallb_forall in *. intros c Hc.
  specialize (A c Hc). specialize (B c Hc).
  apply negb_true_iff in A, B. apply negb_true_iff.
  unfold isSkillsCut. unfold isSkillsHeadSep in A.
  apply orb_false_iff in A. destruct A as [A _].
  rewrite A, B. reflexivity.
Qed.

Lemma splitOnAux_no_sep p s :
  forallb (fun c => negb (p c)) s = true ->
  forall cur, splitOnAux p s cur = [rev cur ++ s].
Proof.
  induction s as [|c s IH]; intros H cur; simpl.
  - rewrite app_nil_r. reflexivity.
  - simpl in H. apply andb_prop in H. destruct H as [H1 H2].
    apply negb_true_iff in H1. rewrite H1, (IH H2). simpl.
    rewrite <- app_assoc. reflexivity.
Qed.

End SkillsFacts.

(** X3.  No skill ever contains one of the characters at which the skills
    line is cut: ':', '-', en dash, ';', ',', '|', bullet, middle dot.  A
    hyphenated skill can therefore not come back with its hyphen. *)
Theorem skills_hold_no_separator text s :
  In s (skills (parse text)) ->
  forallb (fun c => negb (isSkillsCut c)) s = true.
Proof.
  unfold parse. cbn [skills nullish]. unfold parseSkills.
  generalize (firstn 30 (linesOf text)). intros ls.
  induction ls as [|l ls IH]; simpl; [tauto|].
  destruct (isSkillsLine l); [apply skillsParts_clean|exact IH].
Qed.

Lemma skills_hold_no_separator_witness :
  forallb (fun c => negb (isSkillsCut c)) (u "front end") = true.
Proof.
  apply (skills_hold_no_separator skillsHyphenText (u "front end")).
  vm_compute. right. left. reflexivity.
Defined.

(** X4.  When the first line that mentions "skill" holds no ':', '-' or
    en dash, nothing follows a separator and the skills list is empty,
    whatever else the line or the later lines say. *)
Theorem skills_need_a_separator text line :
  find containsSkill (firstn 30 (linesOf text)) = Some line ->
  forallb (fun c => negb (isSkillsHeadSep c)) line = true ->
  skills (parse text) = [].
Proof.
  intros Hf Hs. unfold parse. cbn [skills nullish]. unfold parseSkills.
  rewrite skillsScan_find, Hf. unfold skillsParts, splitOn.
  rewrite (splitOnAux_no_sep isSkillsHeadSep line Hs). reflexivity.
Qed.

Lemma skills_need_a_separator_witness :
  skills (parse (u "Skills Java, Python" ++ [LF] ++ u "Skills: Go")) = [].
Proof.
  apply (skills_need_a_separator _ (u "Skills Java, Python"));
    vm_compute; reflexivity.
Defined.

(** ** Sections *)

Section SectionFacts.

Lemma seq_inv a b st st' :
  Matches (Seq a b) st st' ->
  exists st1, Matches a st st1 /\ Matches b st1 st'.
Proof. intros H. inversion H; subst. eauto. Qed.

Lemma group_inv i a st st' :
  Matches (Group i a) st st' ->
  exists st1,
    Matches a st st1 /\
    st' = MState (m_pos st1) (m_rest st1)
            ((i, firstn (m_pos st1 - m_pos st) (m_rest st)) :: m_caps st).
Proof. intros H. inversion H; subst. eauto. Qed.

Lemma eol_inv st st' : Matches Eol st st' -> st' = st.
Proof. intros H. inversion H; subst. reflexivity. Qed.

Lemma trim_year_prefix w1 w2 :
  List.length w1 = 4 -> forallb isDigit w1 = true ->
  startsWithYear (trim (w1 ++ w2)) = true.
Proof.
  intros Hl Hd.
  destruct w1 as [|a [|b [|c [|d [|e w]]]]]; try discriminate. clear Hl.
  simpl in Hd. rewrite andb_true_r in Hd.
  apply andb_prop in Hd. destruct Hd as [Ha Hd].
  apply andb_prop in Hd. destruct Hd as [Hb Hd].
  apply andb_prop in Hd. destruct Hd as [Hc Hd].
  unfold trim, trimStart. cbn [app].
  rewrite (dropWhile_fixed _ _ _ (digit_not_ws a Ha)).
  unfold trimEnd.
  change (a :: b :: c :: d :: w2) with ([a; b; c; d] ++ w2).
  rewrite rev_app_distr, dropWhile_app.
  change (rev [a; b; c; d]) with [d; c; b; a].
  rewrite (dropWhile_fixed _ _ _ (digit_not_ws d Hd)).
  destruct (dropWhile isWs (rev w2)) as [|y ys].
  - simpl. rewrite Ha, Hb, Hc, Hd. reflexivity.
  - rewrite rev_app_distr. simpl. rewrite Ha, Hb, Hc, Hd. reflexivity.
Qed.

(** The third group of the entry pattern begins with four digits. *)
Lemma entryRe_year line m :
  exec entryRe line = Some m -> startsWithYear (trim (group m 3)) = true.
Proof.
  intros H. unfold exec in H.
  destruct (searchFrom_sound entryRe line 0 m H)
    as [before [here [st' [_ [_ [Hm [_ [Hc _]]]]]]]].
  unfold entryRe in Hm. cbn [seqs] in Hm.
  destruct (seq_inv _ _ _ _ Hm) as [s1 [_ H1]].
  destruct (seq_inv _ _ _ _ H1) as [s2 [_ H2]].
  destruct (seq_inv _ _ _ _ H2) as [s3 [_ H3]].
  destruct (seq_inv _ _ _ _ H3) as [s4 [_ H4]].
  destruct (seq_inv _ _ _ _ H4) as [s5 [_ H5]].
  destruct (seq_inv _ _ _ _ H5) as [s6 [_ H6]].
  destruct (seq_inv _ _ _ _ H6) as [s7 [_ H7]].
  destruct (seq_inv _ _ _ _ H7) as [s8 [_ H8]].
  destruct (seq_inv _ _ _ _ H8) as [s9 [Hg H9]].
  destruct (seq_inv _ _ _ _ H9) as [s10 [Hp He]].
  apply eol_inv in He. subst st'.
  destruct (rep_class _ _ _ _ _ _ Hp) as [_ [_ [_ [_ [_ Hcaps]]]]].
  destruct (group_inv _ _ _ _ Hg) as [sg [Hin ->]].
  destruct (seq_inv _ _ _ _ Hin) as [sd [Hdig Hdot]].
  destruct (rep_class _ _ _ _ _ _ Hdig) as [w1 [R1 [L1 [L2 [D1 _]]]]].
  destruct (rep_class _ _ _ _ _ _ Hdot) as [w2 [R2 _]].
  pose proof (reads_text _ _ _ (reads_trans _ _ _ _ _ R1 R2)) as T.
  unfold group. rewrite Hc, Hcaps. cbn [m_caps lookupCap Nat.eqb].
  rewrite T. apply trim_year_prefix; [simpl in L2; lia|exact D1].
Qed.

Lemma sectionStep_shapes st line :
  Forall experienceShape (acc_experience st) ->
  Forall educationShape (acc_education st) ->
  Forall experienceShape (acc_experience (sectionStep st line)) /\
  Forall educationShape (acc_education (sectionStep st line)).
Proof.
  intros Hx Hd. unfold sectionStep.
  destruct (isExperienceHeader line); [split; assumption|].
  destruct (isEducationHeader line); [split; assumption|].
  destruct (currentSection st) as [[|]|]; [| |split; assumption].
  - destruct (exec entryRe line) as [m|] eqn:E; [|split; assumption].
    cbn [acc_experience acc_education]. split; [|assumption].
    apply Forall_app. split; [assumption|]. constructor; [|constructor].
    eexists _, _, _. split; [reflexivity|].
    repeat split; try apply trim_idem. exact (entryRe_year line m E).
  - destruct (exec entryRe line) as [m|] eqn:E; [|split; assumption].
    cbn [acc_experience acc_education]. split; [assumption|].
    apply Forall_app. split; [assumption|]. constructor; [|constructor].
    eexists _, _, _. split; [reflexivity|].
    repeat split; try apply trim_idem. exact (entryRe_year line m E).
Qed.

Lemma parseSections_shapes lines :
  forall st,
    Forall experienceShape (acc_experience st) ->
    Forall educationShape (acc_education st) ->
    Forall experienceShape (acc_experience (fold_left sectionStep lines st)) /\
    Forall educationShape (acc_education (fold_left sectionStep lines st)).
Proof.
  induction lines as [|l lines IH]; intros st Hx Hd; [split; assumption|].
  simpl. destruct (sectionStep_shapes st l Hx Hd) as [H1 H2].
  apply IH; assumption.
Qed.

Lemma no_experience_header lines :
  forallb (fun l => negb (isExperienceHeader l)) lines = true ->
  forall st,
    currentSection st <> Some SecExperience -> acc_experience st = [] ->
    acc_experience (fold_left sectionStep lines st) = [].
Proof.
  induction lines as [|l lines IH]; intros H st Hs Ha; [exact Ha|].
  simpl in H. apply andb_prop in H. destruct H as [H1 H2].
  apply negb_true_iff in H1. simpl. apply IH; [exact H2| |];
    unfold sectionStep; rewrite H1;
    destruct (isEducationHeader l); cbn [currentSection acc_experience];
    try discriminate; try assumption;
    destruct (currentSection st) as [[|]|] eqn:Ec; try congruence;
    destruct (exec entryRe l); cbn [currentSection acc_experience];
    try rewrite Ec; try discriminate; assumption.
Qed.

Lemma no_education_header lines :
  forallb (fun l => negb (isEducationHeader l)) lines = true ->
  forall st,
    currentSection st <> Some SecEducation -> acc_education st = [] ->
    acc_education (fold_left sectionStep lines st) = [].
Proof.
  induction lines as [|l lines IH]; intros H st Hs Ha; [exact Ha|].
  simpl in H. apply andb_prop in H. destruct H as [H1 H2].
  apply negb_true_iff in H1. simpl. apply IH; [exact H2| |];
    unfold sectionStep; rewrite H1;
    destruct (isExperienceHeader l); cbn [currentSection acc_education];
    try discriminate; try assumption;
    destruct (currentSection st) as [[|]|] eqn:Ec; try congruence;
    destruct (exec entryRe l); cbn [currentSection acc_education];
    try rewrite Ec; try discriminate; assumption.
Qed.

End SectionFacts.

(** X5.  Every experience entry has a title, a company and a date range
    and never a description; every education entry has a degree, an
    institution and a date range.  Each of these strings is trimmed, and
    every date range begins with four digits. *)
Theorem entries_have_shape text :
  Forall experienceShape (experience (parse text)) /\
  Forall educationShape (education (parse text)).
Proof.
  unfold parse. cbn [experience education nullish]. unfold parseSections.
  apply parseSections_shapes; constructor.
Qed.

(** X6.  Entries need a header: a text none of whose lines is an experience
    header has no experience entries, and a text none of whose lines is an
    education header has no education entries. *)
Theorem entries_need_header text :
  (forallb (fun l => negb (isExperienceHeader l)) (linesOf text) = true ->
   experience (parse text) = []) /\
  (forallb (fun l => negb (isEducationHeader l)) (linesOf text) = true ->
   education (parse text) = []).
Proof.
  unfold parse. cbn [experience education nullish]. unfold parseSections.
  split; intros H.
  - apply no_experience_header; [exact H|discriminate|reflexivity].
  - apply no_education_header; [exact H|discriminate|reflexivity].
Qed.

(** An entry line without any header above it is dropped. *)
Lemma entries_need_header_witness :
  experience (parse (u "Senior Engineer - Acme Corp (2019-2022)")) = [] /\
  education (parse (u "Senior Engineer - Acme Corp (2019-2022)")) = [].
Proof.
  split.
  - apply (proj1 (entries_need_header (u "Senior Engineer - Acme Corp (2019-2022)"))).
    vm_compute. reflexivity.
  - apply (proj2 (entries_need_header (u "Senior Engineer - Acme Corp (2019-2022)"))).
    vm_compute. reflexivity.
Defined.

(** ** E-mail and phone *)

Section ContactFacts.

Lemma search_text r s m :
  searchFrom r 0 s = Some m ->
  exists here st',
    Matches r (MState (r_index m) here []) st' /\
    forall w, reads (MState (r_index m) here []) w st' ->
              r_text m = w /\ partOf w s.
Proof.
  intros H.
  destruct (searchFrom_sound r s 0 m H)
    as [before [here [st' [H1 [_ [H3 [_ [_ H6]]]]]]]].
  exists here, st'. split; [exact H3|].
  intros w Hr. pose proof (reads_text _ _ _ Hr) as T.
  cbn [m_pos m_rest] in T. rewrite H6, T. split; [reflexivity|].
  destruct Hr as [Hr _]. cbn [m_rest] in Hr.
  exists before, (m_rest st'). rewrite H1, Hr. reflexivity.
Qed.

Lemma matchAll_first r s p tl :
  matchAll r s = Some (p :: tl) ->
  exists m, searchFrom r 0 s = Some m /\ r_text m = p.
Proof.
  unfold matchAll. cbn [matchAllFrom].
  destruct (searchFrom r 0 s) as [m|]; [|discriminate].
  intros H. injection H as H _. exists m. auto.
Qed.

Lemma phoneRe_reads st st' :
  Matches phoneRe st st' ->
  exists w, reads st w st' /\ phoneShape w.
Proof.
  unfold phoneRe. cbn [seqs]. intros H.
  destruct (seq_inv _ _ _ _ H) as [s1 [Hs Hd]].
  destruct (rep_class _ _ _ _ _ _ Hs) as [w1 [R1 [_ [L1 [P1 _]]]]].
  destruct (rep_class _ _ _ _ _ _ Hd) as [w2 [R2 [L2 [L3 [P2 _]]]]].
  exists (w1 ++ w2). split; [exact (reads_trans _ _ _ _ _ R1 R2)|].
  exists w1, w2. split; [reflexivity|]. split.
  - simpl in L1. destruct w1 as [|c [|d w]]; [left; reflexivity| |simpl in L1; lia].
    right. simpl in P1. rewrite andb_true_r in P1.
    unfold isChar, cu_eqb in P1. apply N.eqb_eq in P1. subst c. reflexivity.
  - split; [exact P2|]. simpl in L3. lia.
Qed.

Lemma emailRe_reads st st' :
  Matches emailRe st st' ->
  exists w, reads st w st' /\ emailShape w.
Proof.
  unfold emailRe. cbn [seqs]. intros H.
  destruct (seq_inv _ _ _ _ H) as [s1 [Hl H1]].
  destruct (seq_inv _ _ _ _ H1) as [s2 [Hat H2]].
  destruct (seq_inv _ _ _ _ H2) as [s3 [Hd H3]].
  destruct (seq_inv _ _ _ _ H3) as [s4 [Hdot Ht]].
  destruct (rep_class _ _ _ _ _ _ Hl) as [wl [Rl [Ll [_ [Pl _]]]]].
  destruct (chr_reads _ _ _ Hat) as [a [Ra [Pa _]]].
  destruct (rep_class _ _ _ _ _ _ Hd) as [wd [Rd [Ld [_ [Pd _]]]]].
  destruct (chr_reads _ _ _ Hdot) as [b [Rb [Pb _]]].
  destruct (rep_class _ _ _ _ _ _ Ht) as [wt [Rt [Lt [_ [Pt _]]]]].
  unfold isChar, cu_eqb in Pa, Pb. apply N.eqb_eq in Pa, Pb. subst a b.
  exists (wl ++ [64%N] ++ wd ++ [46%N] ++ wt). split.
  - exact (reads_trans _ _ _ _ _ Rl
             (reads_trans _ _ _ _ _ Ra
                (reads_trans _ _ _ _ _ Rd (reads_trans _ _ _ _ _ Rb Rt)))).
  - exists wl, wd, wt. split; [reflexivity|].
    split; [destruct wl; [simpl in Ll; lia|discriminate]|].
    split; [exact Pl|].
    split; [destruct wd; [simpl in Ld; lia|discriminate]|].
    split; [exact Pd|]. split; [exact Lt|exact Pt].
Qed.

End ContactFacts.

(** X7.  A phone number, when [parse] reports one, is a contiguous part of
    the text made of an optional plus sign and 7 to 15 digits. *)
Theorem phone_has_shape text p :
  phone (parse text) = Some p -> partOf p text /\ phoneShape p.
Proof.
  unfold parse. cbn [phone nullish].
  destruct (matchAll phoneRe text) as [[|q tl]|] eqn:E; try discriminate.
  intros H. injection H as ->.
  destruct (matchAll_first _ _ _ _ E) as [m [Hs <-]].
  destruct (search_text _ _ _ Hs) as [here [st' [Hm Hw]]].
  destruct (phoneRe_reads _ _ Hm) as [w [Hr Hp]].
  destruct (Hw w Hr) as [-> Hpart]. auto.
Qed.

Lemma phone_has_shape_witness :
  partOf (u "+27821234567") (u "Call +27821234567 or 0115550000") /\
  phoneShape (u "+27821234567").
Proof.
  apply (phone_has_shape (u "Call +27821234567 or 0115550000")).
  vm_compute. reflexivity.
Defined.

(** X8.  An e-mail address, when [parse] reports one, is a contiguous part
    of the text of the form local-part, '@', domain, '.', top-level domain:
    the local part and the domain are not empty and the top-level domain
    has at least two letters.  A text without '@' therefore has no e-mail
    address. *)
Theorem email_has_shape text :
  (forall e, email (parse text) = Some e -> partOf e text /\ emailShape e) /\
  (forallb (fun c => negb (cu_eqb c 64%N)) text = true ->
   email (parse text) = None).
Proof.
  assert (A : forall e, email (parse text) = Some e ->
                        partOf e text /\ emailShape e).
  { unfold parse. cbn [email nullish]. unfold exec.
    intros e. destruct (searchFrom emailRe 0 text) as [m|] eqn:E; [|discriminate].
    cbn [option_map]. intros H. injection H as <-.
    destruct (search_text _ _ _ E) as [here [st' [Hm Hw]]].
    destruct (emailRe_reads _ _ Hm) as [w [Hr Hp]].
    destruct (Hw w Hr) as [-> Hpart]. auto. }
  split; [exact A|].
  intros Hno. destruct (email (parse text)) as [e|] eqn:E; [|reflexivity].
  exfalso. destruct (A e eq_refl) as [[before [after Hpart]] [l [d [t [He _]]]]].
  rewrite Hpart, He, !forallb_app in Hno. simpl in Hno.
  rewrite !andb_false_r in Hno. discriminate.
Qed.

Lemma email_has_shape_witness :
  partOf (u "jane.doe@example.com") (u "Contact: jane.doe@example.com please") /\
  emailShape (u "jane.doe@example.com") /\
  email (parse (u "Contact: jane.doe at example.com")) = None.
Proof.
  destruct (proj1 (email_has_shape (u "Contact: jane.doe@example.com please"))
              (u "jane.doe@example.com")) as [H1 H2]; [vm_compute; reflexivity|].
  split; [exact H1|]. split; [exact H2|].
  apply (proj2 (email_has_shape (u "Contact: jane.doe at example.com"))).
  vm_compute. reflexivity.
Defined.

(** ** OCR *)

Section OcrFacts.

Variable env : Env.

Lemma recognizedText_returned b v :
  outcome (recognizeImageBuffer env b) = Returned v -> recognizedText env b = v.
Proof. intros H. unfold recognizedText. rewrite H. reflexivity. Qed.

(** The loop over the pages: its calls and its text.  A page whose OCR
    call throws is skipped like a page without text. *)
Lemma ocrPages_value results :
  forall acc,
    ocrPages env results acc =
      (map EvRecognize (pageBuffers env results),
       Returned (acc ++ List.concat
                   (map (fun t => t ++ [LF])
                        (filter truthy
                           (map (recognizedText env) (pageBuffers env results)))))).
Proof.
  induction results as [|r results IH]; intros acc.
  - simpl. rewrite app_nil_r. reflexivity.
  - cbn [ocrPages pageBuffers flat_map]. fold (pageBuffers env results).
    destruct (pageImage r) as [b|]; [|apply IH].
    cbn [app map filter].
    destruct (recognize_shape env (bufferFromBase64 env b)) as [[v Hv]|Hv].
    + assert (Ev : recognizedText env (bufferFromBase64 env b) = v)
        by (apply recognizedText_returned; rewrite Hv; reflexivity).
      rewrite Hv, Ev, bind_returned.
      destruct (truthy v) eqn:E;
        cbn [ret trace outcome fst snd]; rewrite tryCatch_returned, bind_returned, IH;
        cbn [trace outcome fst snd app map List.concat].
      * rewrite <- !app_assoc. reflexivity.
      * reflexivity.
    + assert (Ev : recognizedText env (bufferFromBase64 env b) = [])
        by (unfold recognizedText; rewrite Hv; reflexivity).
      rewrite Hv, Ev. cbn [bind truthy]. rewrite tryCatch_thrown.
      cbn [ret trace outcome fst snd]. rewrite bind_returned, IH.
      cbn [trace outcome fst snd app]. reflexivity.
Qed.

End OcrFacts.



(** X10.  [ocrPdfBuffer] never throws and its result is always trimmed;
    it is the empty string when pdf2pic is missing, when the conversion
    fails, and when the conversion gives no pages. *)
Theorem ocrPdfBuffer_never_throws env b :
  (exists text, outcome (ocrPdfBuffer env b) = Returned text /\ trim text = text) /\
  (pdf2picLib env = None -> outcome (ocrPdfBuffer env b) = Returned []) /\
  (forall bulk,
     pdf2picLib env = Some bulk ->
     bulk b = None \/ bulk b = Some None \/ bulk b = Some (Some []) ->
     outcome (ocrPdfBuffer env b) = Returned []).
Proof.
  split; [|split].
  - unfold ocrPdfBuffer. rewrite outcome_bind. cbn [emit outcome snd].
    rewrite outcome_tryCatch.
    destruct (pdf2picLib env) as [bulk|]; [|exists []; split; reflexivity].
    rewrite outcome_bind. cbn [emit outcome snd].
    destruct (bulk b) as [[[|p pages]|]|]; try (exists []; split; reflexivity).
    rewrite outcome_bind, ocrPages_value. cbn [outcome snd ret].
    eexists. split; [reflexivity|apply trim_idem].
  - intros H. unfold ocrPdfBuffer. rewrite H. reflexivity.
  - intros bulk H [E|[E|E]]; unfold ocrPdfBuffer; rewrite H;
      rewrite outcome_bind; cbn [emit outcome snd];
      rewrite outcome_tryCatch, outcome_bind; cbn [emit outcome snd];
      rewrite E; reflexivity.
Qed.

Lemma ocrPdfBuffer_never_throws_witness :
  outcome (ocrPdfBuffer (sampleEnv [] []) [1%N]) = Returned [].
Proof.
  apply (proj2 (proj2 (ocrPdfBuffer_never_throws (sampleEnv [] []) [1%N]))
           (fun _ => Some (Some [])) eq_refl).
  right. right. reflexivity.
Defined.

(** X11.  When the conversion gives pages, [ocrPdfBuffer] rasterizes once
    and calls OCR once for each page that carries image data, in page
    order, and for no other page; its text is made of the non-empty page
    texts, each followed by a line feed, then trimmed: a page without text
    leaves no empty line. *)
Theorem ocrPdfBuffer_pages env b bulk results :
  pdf2picLib env = Some bulk ->
  bulk b = Some (Some results) ->
  results <> [] ->
  ocrPdfBuffer env b =
    (EvOcrPdfBuffer b :: EvRasterize b
       :: map EvRecognize (pageBuffers env results),
     Returned
       (trim (List.concat
                (map (fun t => t ++ [LF])
                     (filter truthy
                        (map (recognizedText env) (pageBuffers env results))))))).
Proof.
  intros Hl Hb Hr. unfold ocrPdfBuffer. rewrite Hl.
  cbn [emit bind]. rewrite Hb.
  destruct results as [|p pages]; [congruence|].
  rewrite ocrPages_value. cbn [bind ret tryCatch app]. rewrite app_nil_r.
  reflexivity.
Qed.

(** Five conversion results, three of them with image data. *)
Lemma ocrPdfBuffer_pages_witness :
  ocrPdfBuffer (sampleEnv [] mixedPages) [7%N]
  = ([EvOcrPdfBuffer [7%N]; EvRasterize [7%N];
      EvRecognize (u "a"); EvRecognize (u " "); EvRecognize (u "b")],
     Returned (u "a" ++ [LF] ++ u " " ++ [LF] ++ u "b")).
Proof.
  pose proof (ocrPdfBuffer_pages (sampleEnv [] mixedPages) [7%N]
                (fun _ => Some (Some mixedPages)) mixedPages eq_refl eq_refl) as H.
  rewrite H; [|discriminate]. vm_compute. reflexivity.
Defined.

(** ** More on the extraction stage and the endpoint *)

Section ExtractionMore.

Variable env : Env.

Lemma lowerUnit_fixed c : flat_map lowerUnit (lowerUnit c) = lowerUnit c.
Proof.
  unfold lowerUnit at 2 3.
  destruct (isUpper c) eqn:E1.
  - unfold isUpper, in_range in E1. apply andb_prop in E1.
    destruct E1 as [H1 H2]. apply N.leb_le in H1, H2.
    cbn [flat_map]. rewrite app_nil_r. unfold lowerUnit.
    replace (isUpper (c + 32)%N) with false.
    + unfold cu_eqb, KELVIN_SIGN, CAPITAL_I_DOT.
      replace (N.eqb (c + 32)%N 8490%N) with false
        by (symmetry; apply N.eqb_neq; lia).
      replace (N.eqb (c + 32)%N 304%N) with false
        by (symmetry; apply N.eqb_neq; lia).
      reflexivity.
    + symmetry. unfold isUpper, in_range. apply andb_false_iff. right.
      apply N.leb_gt. lia.
  - destruct (cu_eqb c KELVIN_SIGN) eqn:E2; [reflexivity|].
    destruct (cu_eqb c CAPITAL_I_DOT) eqn:E3; [reflexivity|].
    cbn [flat_map]. rewrite app_nil_r. unfold lowerUnit.
    rewrite E1, E2, E3. reflexivity.
Qed.

Lemma toLowerCase_idem s : toLowerCase (toLowerCase s) = toLowerCase s.
Proof.
  unfold toLowerCase. induction s as [|c s IH]; [reflexivity|].
  cbn [flat_map]. rewrite flat_map_app, IH, lowerUnit_fixed. reflexivity.
Qed.

Lemma extraction_events_app t1 t2 :
  forallb isExtractionEvent (t1 ++ t2)
  = forallb isExtractionEvent t1 && forallb isExtractionEvent t2.
Proof. apply forallb_app. Qed.

Lemma ocr_events_extraction t :
  forallb isOcrEvent t = true -> forallb isExtractionEvent t = true.
Proof.
  induction t as [|e t IH]; [reflexivity|].
  simpl. intros H. apply andb_prop in H. destruct H as [H1 H2].
  rewrite (IH H2). destruct e; try discriminate; reflexivity.
Qed.

Lemma pdfParse_events_extraction t :
  forallb isPdfParseEvent t = true -> forallb isExtractionEvent t = true.
Proof.
  induction t as [|e t IH]; [reflexivity|].
  simpl. intros H. apply andb_prop in H. destruct H as [H1 H2].
  rewrite (IH H2). destruct e; try discriminate; reflexivity.
Qed.

Lemma dispatch_events file :
  forallb isExtractionEvent (trace (dispatch env file)) = true.
Proof.
  rewrite dispatch_branches.
  destruct (isPdfMime (mimetype file)).
  - destruct (extractPdf_cases env (buffer file))
      as [t1 [native [_ [H2 [[_ [t2 [ocr [_ [H4 H]]]]]|[_ H]]]]]];
      rewrite H; cbn [trace fst].
    + rewrite extraction_events_app, (pdfParse_events_extraction _ H2).
      simpl. apply ocr_events_extraction. exact H4.
    + apply pdfParse_events_extraction. exact H2.
  - destruct (isWordMime (mimetype file)).
    + destruct (extractWord_cases env (buffer file)) as [[v H]|[t [H [Ht _]]]];
        rewrite H; [reflexivity|].
      destruct Ht as [->| ->]; reflexivity.
    + destruct (isImageMime (mimetype file)); [|reflexivity].
      destruct (extractImage_shape env (buffer file)) as [[v H]|H];
        rewrite H; reflexivity.
Qed.

Lemma extraction_events_no_database t :
  forallb isExtractionEvent t = true -> existsb isDatabaseEvent t = false.
Proof.
  induction t as [|e t IH]; [reflexivity|].
  simpl. intros H. apply andb_prop in H. destruct H as [H1 H2].
  rewrite (IH H2). destruct e; try discriminate; reflexivity.
Qed.

End ExtractionMore.

(** X12.  A PDF upload is never reported as unsupported or malformed:
    whatever pdf-parse and pdf2pic do (missing, failing, empty), the
    extraction either returns a text that is not blank or fails with
    NoExtractableText. *)
Theorem pdf_extraction_outcomes env file :
  isPdfMime (mimetype file) = true ->
  (exists text, outcome (extractText env file) = Returned text /\
                whitespaceOnly text = false) \/
  outcome (extractText env file) = Thrown NoExtractableText.
Proof.
  intros Hpdf.
  assert (D : exists t text, dispatch env file = (t, Returned text)).
  { rewrite dispatch_branches, Hpdf.
    destruct (extractPdf_cases env (buffer file))
      as [t1 [native [_ [_ [[_ [t2 [ocr [_ [_ H]]]]]|[_ H]]]]]];
      rewrite H; eauto. }
  destruct D as [t [text D]].
  rewrite (extractText_of_returned env file t text D). cbn [outcome snd].
  destruct (isBlank text) eqn:E; [right; reflexivity|].
  left. exists text. split; [reflexivity|]. apply isBlank_false_iff. exact E.
Qed.

(** A PDF with every library missing. *)
Lemma pdf_extraction_outcomes_witness :
  (exists text,
     outcome (extractText
                (mkEnv None None None None (fun b => b) (fun s => s)
                       (fun _ _ => None) (fun _ => None)) samplePdf)
       = Returned text /\ whitespaceOnly text = false) \/
  outcome (extractText
             (mkEnv None None None None (fun b => b) (fun s => s)
                    (fun _ _ => None) (fun _ => None)) samplePdf)
    = Thrown NoExtractableText.
Proof.
  apply (pdf_extraction_outcomes
           (mkEnv None None None None (fun b => b) (fun s => s)
                  (fun _ _ => None) (fun _ => None)) samplePdf).
  vm_compute. reflexivity.
Defined.

(** X13.  The declared MIME type is matched without regard to case: an
    upload is handled exactly as the same upload with its type in lower
    case, by the service and by the endpoint. *)
Theorem mime_case_is_ignored env fuel userId mime filename b :
  importFromFile env fuel userId (mkFile (toLowerCase mime) filename b)
    = importFromFile env fuel userId (mkFile mime filename b) /\
  importFile env fuel userId (Some (mkFile (toLowerCase mime) filename b))
    = importFile env fuel userId (Some (mkFile mime filename b)).
Proof.
  assert (A : importFromFile env fuel userId (mkFile (toLowerCase mime) filename b)
              = importFromFile env fuel userId (mkFile mime filename b)).
  { unfold importFromFile, extractText, dispatch, storeResume.
    cbn [mimetype originalname buffer]. rewrite toLowerCase_idem. reflexivity. }
  split; [exact A|].
  unfold importFile. cbn [mimetype buffer]. rewrite toLowerCase_idem, A.
  reflexivity.
Qed.



(** X15.  When the extraction fails, [importFromFile] fails with the same
    error and has not touched the database: no slug lookup and no record
    creation. *)
Theorem failed_extraction_leaves_database env fuel userId file e :
  outcome (extractText env file) = Thrown e ->
  outcome (importFromFile env fuel userId file) = Thrown e /\
  existsb isDatabaseEvent (trace (importFromFile env fuel userId file)) = false.
Proof.
  intros H. unfold importFromFile. rewrite outcome_bind, trace_bind, H.
  split; [reflexivity|]. rewrite app_nil_r, extractText_trace.
  apply extraction_events_no_database, dispatch_events.
Qed.

Lemma failed_extraction_leaves_database_witness :
  outcome (importFromFile (sampleEnv [] []) 1 (u "user") sampleDocx)
    = Thrown MalformedDocument /\
  existsb isDatabaseEvent
    (trace (importFromFile (sampleEnv [] []) 1 (u "user") sampleDocx)) = false.
Proof.
  apply (failed_extraction_leaves_database (sampleEnv [] []) 1 (u "user") sampleDocx).
  vm_compute. reflexivity.
Defined.

(** ** The persistence stage *)

Section PersistenceFacts.

Variable env : Env.

Lemma uniqueTitle_trace fuel userId base :
  forall title slug counter e,
    In e (trace (uniqueTitle env fuel userId base title slug counter)) ->
    exists sl, e = EvFindFirst userId sl.
Proof.
  induction fuel as [|fuel IH]; intros title slug counter e; [intros []|].
  cbn [uniqueTitle]. rewrite trace_bind. cbn [emit trace outcome fst snd app].
  intros [<-|H]; [eauto|].
  destruct (prismaFindFirst env userId slug) as [[|]|];
    [exact (IH _ _ _ _ H)|destruct H..].
Qed.

(** What the slug loop returns: one of the candidate titles, with its own
    slug, which the lookup did not report as taken. *)
Lemma uniqueTitle_result fuel userId base :
  forall j t sl,
    outcome (uniqueTitle env fuel userId base (candidateTitle base j)
               (slugify env (candidateTitle base j)) (S j))
      = Returned (t, sl) ->
    (exists k, t = candidateTitle base k) /\
    sl = slugify env t /\
    prismaFindFirst env userId sl <> Some true.
Proof.
  induction fuel as [|fuel IH]; intros j t sl; [discriminate|].
  cbn [uniqueTitle]. rewrite outcome_bind. cbn [emit outcome snd].
  destruct (prismaFindFirst env userId (slugify env (candidateTitle base j)))
    as [[|]|] eqn:E.
  - intros H. exact (IH (S j) t sl H).
  - cbn [ret outcome snd]. intros H. injection H as <- <-.
    split; [eauto|]. split; [reflexivity|]. rewrite E. discriminate.
  - cbn [ret outcome snd]. intros H. injection H as <- <-.
    split; [eauto|]. split; [reflexivity|]. rewrite E. discriminate.
Qed.

Lemma firstParagraph_prefix s : exists rest, s = firstParagraph s ++ rest.
Proof.
  induction s as [|c s [rest IH]]; [exists []; reflexivity|].
  cbn [firstParagraph].
  destruct (cu_eqb c LF).
  - destruct s as [|d s']; [exists []; reflexivity|].
    destruct (cu_eqb d LF); [exists (c :: d :: s'); reflexivity|].
    exists rest. cbn [app]. f_equal. exact IH.
  - exists rest. cbn [app]. f_equal. exact IH.
Qed.

Lemma storeResume_create fuel userId file text row :
  In (EvCreate row) (trace (storeResume env fuel userId file text)) ->
  row_userId row = userId /\
  row_visibility row = "private"%string /\
  row_headline row = slice0 1200 (firstParagraph (trim text)) /\
  (exists k, row_title row = candidateTitle (stripExtension (originalname file)) k) /\
  row_slug row = slugify env (row_title row) /\
  prismaFindFirst env userId (row_slug row) <> Some true.
Proof.
  unfold storeResume. cbn [nullish]. rewrite trace_bind. intros H.
  apply in_app_or in H. destruct H as [H|H].
  - destruct (uniqueTitle_trace _ _ _ _ _ _ _ H) as [sl E]. discriminate.
  - destruct (outcome (uniqueTitle env fuel userId (stripExtension (originalname file))
                         (stripExtension (originalname file))
                         (slugify env (stripExtension (originalname file))) 1))
      as [[t sl]| |] eqn:E; try destruct H.
    destruct (uniqueTitle_result fuel userId (stripExtension (originalname file))
                0 t sl E) as [Hk [Hs Hf]].
    rewrite trace_bind in H. cbn [emit trace outcome fst snd app] in H.
    destruct H as [H|H].
    + injection H as <-. cbn [row_userId row_visibility row_headline row_title
                               row_slug fst snd]. auto 10.
    + destruct (prismaCreate env _); destruct H.
Qed.

End PersistenceFacts.

(** X16.  Every record that [importFromFile] creates belongs to the
    uploading user and is private; its headline is the first paragraph of
    the trimmed extracted text (which is not blank), at most 1200 code
    units long; its title is the file name without extension, possibly
    followed by a counter in parentheses; its slug is the slug of that
    title, and the lookup did not report it as taken. *)
Theorem created_record_invariants env fuel userId file row :
  In (EvCreate row) (trace (importFromFile env fuel userId file)) ->
  exists text,
    outcome (extractText env file) = Returned text /\
    whitespaceOnly text = false /\
    row_userId row = userId /\
    row_visibility row = "private"%string /\
    row_headline row = slice0 1200 (firstParagraph (trim text)) /\
    List.length (row_headline row) <= 1200 /\
    (exists rest, trim text = firstn 1200 (row_headline row) ++ rest) /\
    (exists k, row_title row = candidateTitle (stripExtension (originalname file)) k) /\
    row_slug row = slugify env (row_title row) /\
    prismaFindFirst env userId (row_slug row) <> Some true.
Proof.
  unfold importFromFile. rewrite trace_bind. intros H.
  apply in_app_or in H. destruct H as [H|H].
  - exfalso. rewrite extractText_trace in H.
    pose proof (dispatch_events env file) as F. rewrite forallb_forall in F.
    specialize (F _ H). discriminate.
  - destruct (outcome (extractText env file)) as [text| |] eqn:E; try destruct H.
    exists text. split; [reflexivity|].
    assert (B : whitespaceOnly text = false).
    { destruct (dispatch_cases env file)
        as [[t [tx D]]|[[_ [_ [t D]]]|[[_ [_ [_ D]]]|[_ [_ [_ [_ D]]]]]]].
      - rewrite (extractText_of_returned env file t tx D) in E. cbn [outcome snd] in E.
        destruct (isBlank tx) eqn:Eb; [discriminate|].
        injection E as ->. apply isBlank_false_iff. exact Eb.
      - rewrite (extractText_of_thrown env file t _ D) in E. discriminate.
      - rewrite (extractText_of_thrown env file _ _ D) in E. discriminate.
      - rewrite (extractText_of_thrown env file _ _ D) in E. discriminate. }
    destruct (storeResume_create env fuel userId file text row H)
      as [H1 [H2 [H3 [H4 [H5 H6]]]]].
    split; [exact B|]. split; [exact H1|]. split; [exact H2|]. split; [exact H3|].
    split; [rewrite H3; unfold slice0; apply firstn_le_length|].
    split; [|auto].
    rewrite H3. unfold slice0. rewrite firstn_firstn, Nat.min_id.
    destruct (firstParagraph_prefix (trim text)) as [rest Hr].
    exists (skipn 1200 (firstParagraph (trim text)) ++ rest).
    rewrite app_assoc, firstn_skipn. exact Hr.
Qed.

Lemma created_record_invariants_witness :
  exists text,
    outcome (extractText (sampleEnv nativeLong []) samplePdf) = Returned text /\
    whitespaceOnly text = false /\
    (u "user") = (u "user") /\
    "private"%string = "private"%string /\
    u "Jane Doe" = slice0 1200 (firstParagraph (trim text)) /\
    List.length (u "Jane Doe") <= 1200 /\
    (exists rest, trim text = firstn 1200 (u "Jane Doe") ++ rest) /\
    (exists k, u "cv" = candidateTitle (stripExtension (u "cv.pdf")) k) /\
    u "cv" = toLowerCase (u "cv") /\
    Some false <> Some true.
Proof.
  apply (created_record_invariants (sampleEnv nativeLong []) 1 (u "user") samplePdf
           (mkRow (u "user") "private" (u "Jane Doe") (u "cv") (u "cv"))).
  vm_compute. right. right. left. reflexivity.
Defined.

(** X17.  The slug loop tries the base title, then "title (1)",
    "title (2)", and so on: when the first [k] of these have a taken slug
    and the next one has not (the lookup finds nothing, or fails), the loop
    makes [k + 1] lookups and returns candidate [k] with its slug. *)
Theorem slug_loop_takes_first_free env userId base k fuel :
  (forall i, i < k ->
     prismaFindFirst env userId (slugify env (candidateTitle base i)) = Some true) ->
  prismaFindFirst env userId (slugify env (candidateTitle base k)) <> Some true ->
  k < fuel ->
  uniqueTitle env fuel userId base base (slugify env base) 1
  = (map (fun i => EvFindFirst userId (slugify env (candidateTitle base i)))
         (seq 0 (S k)),
     Returned (candidateTitle base k, slugify env (candidateTitle base k))).
Proof.
  intros Htaken Hfree Hfuel.
  apply (uniqueTitle_run env userId base k Hfree k 0 fuel); [reflexivity|exact Hfuel|].
  intros i _ Hi. apply Htaken. exact Hi.
Qed.

(** Two slugs taken: the third candidate is used. *)
Lemma slug_loop_takes_first_free_witness :
  uniqueTitle
    (mkEnv None None None None (fun b => b) (fun s => s)
           (fun _ slug => Some (str_eqb slug (u "cv") || str_eqb slug (u "cv (1)")))
           (fun row => Some row))
    5 (u "user") (u "cv") (u "cv") (u "cv") 1
  = ([EvFindFirst (u "user") (u "cv"); EvFindFirst (u "user") (u "cv (1)");
      EvFindFirst (u "user") (u "cv (2)")],
     Returned (u "cv (2)", u "cv (2)")).
Proof.
  apply (slug_loop_takes_first_free
           (mkEnv None None None None (fun b => b) (fun s => s)
                  (fun _ slug => Some (str_eqb slug (u "cv") || str_eqb slug (u "cv (1)")))
                  (fun row => Some row))
           (u "user") (u "cv") 2 5).
  - intros i Hi. destruct i as [|[|i]]; [reflexivity|reflexivity|lia].
  - vm_compute. discriminate.
  - lia.
Defined.

(** ** The title of an imported resume *)

Section ExtensionFacts.

Lemma rep_class_eol_all p lo :
  forall rest fuel count pos caps,
    List.length rest < fuel ->
    forallb p rest = true ->
    lo <= count + List.length rest ->
    rep_loop (rmatch (Chr p)) lo None true
      (fun st1 => rmatch Eol st1 (fun st => Some st))
      fuel count (MState pos rest caps)
    = Some (MState (pos + List.length rest) [] caps).
Proof.
  induction rest as [|c rest IH]; intros fuel count pos caps Hf Hp Hlo;
    (destruct fuel as [|fuel]; [simpl in Hf; lia|]);
    cbn [rep_loop rmatch m_rest m_pos m_caps reached List.length].
  - simpl in Hlo. rewrite Nat.add_0_r in *.
    replace (count <? lo) with false by (symmetry; apply Nat.ltb_ge; lia).
    reflexivity.
  - simpl in Hp. apply andb_prop in Hp. destruct Hp as [Hc Hp]. rewrite Hc.
    replace (S pos =? pos) with false by (symmetry; apply Nat.eqb_neq; lia).
    rewrite andb_false_r.
    simpl in Hf, Hlo.
    assert (E : rep_loop (rmatch (Chr p)) lo None true
                  (fun st1 => rmatch Eol st1 (fun st => Some st))
                  fuel (S count) (MState (S pos) rest caps)
                = Some (MState (pos + S (List.length rest)) [] caps)).
    { rewrite <- Nat.add_succ_comm. apply IH; [lia|exact Hp|lia]. }
    cbn [rmatch m_rest m_pos m_caps] in E. rewrite E.
    destruct (count <? lo); reflexivity.
Qed.

Lemma extensionRe_here pos ext :
  ext <> [] -> forallb isExtensionChar ext = true ->
  rmatch extensionRe (MState pos (46%N :: ext) []) (fun st => Some st)
  = Some (MState (S pos + List.length ext) [] []).
Proof.
  intros He Hc. unfold extensionRe. cbn [seqs rmatch m_rest m_pos m_caps].
  replace (isChar 46%N 46%N) with true by reflexivity.
  apply (rep_class_eol_all isExtensionChar 1 ext);
    [cbn [m_rest]; lia|exact Hc|].
  destruct ext; [congruence|simpl; lia].
Qed.

Lemma extensionRe_reads st st' :
  Matches extensionRe st st' ->
  exists w, reads st (46%N :: w) st' /\ forallb isExtensionChar w = true /\
            m_rest st' = [].
Proof.
  unfold extensionRe. cbn [seqs]. intros H.
  destruct (seq_inv _ _ _ _ H) as [s1 [Hd H1]].
  destruct (seq_inv _ _ _ _ H1) as [s2 [Hr He]].
  destruct (chr_reads _ _ _ Hd) as [c [Rc [Pc _]]].
  destruct (rep_class _ _ _ _ _ _ Hr) as [w [Rw [_ [_ [Pw _]]]]].
  unfold isChar, cu_eqb in Pc. apply N.eqb_eq in Pc. subst c.
  inversion He; subst.
  exists w. split; [exact (reads_trans _ _ _ _ _ Rc Rw)|]. auto.
Qed.

Lemma extensionRe_not_before pos c s ext :
  rmatch extensionRe (MState pos (c :: s ++ 46%N :: ext) []) (fun st => Some st)
  = None.
Proof.
  destruct (rmatch extensionRe _ _) as [st|] eqn:E; [exfalso|reflexivity].
  destruct (rmatch_sound _ _ _ _ E) as [st' [Hm Hk]]. injection Hk as ->.
  destruct (extensionRe_reads _ _ Hm) as [w [[R _] [Pw Hn]]].
  cbn [m_rest] in R. rewrite Hn, app_nil_r in R. injection R as _ R.
  rewrite <- R, forallb_app in Pw. simpl in Pw. rewrite andb_false_r in Pw.
  discriminate.
Qed.

Lemma extension_search ext :
  ext <> [] -> forallb isExtensionChar ext = true ->
  forall s pos,
    searchFrom extensionRe pos (s ++ 46%N :: ext)
    = Some (RMatched (pos + List.length s) (46%N :: ext)
                     (S (pos + List.length s) + List.length ext) []).
Proof.
  intros He Hc. induction s as [|c s IH]; intros pos.
  - cbn [app searchFrom]. rewrite (extensionRe_here pos ext He Hc).
    cbn [m_pos m_caps List.length]. rewrite Nat.add_0_r.
    replace (S pos + List.length ext - pos) with (List.length (46%N :: ext))
      by (cbn [List.length]; unfold code_unit; lia).
    rewrite firstn_all. reflexivity.
  - cbn [app searchFrom]. rewrite extensionRe_not_before, IH.
    cbn [List.length]. rewrite <- Nat.add_succ_comm. reflexivity.
Qed.

End ExtensionFacts.

(** X18.  The title of an imported resume is the file name without its
    last extension: a final '.' followed by one or more characters other
    than '.' and '/' is removed, whatever comes before it; a name without
    any '.' is kept as it is. *)
Theorem stripExtension_removes_last s ext :
  (ext <> [] -> forallb isExtensionChar ext = true ->
   stripExtension (s ++ [46%N] ++ ext) = s) /\
  (forallb (fun c => negb (cu_eqb c 46%N)) s = true -> stripExtension s = s).
Proof.
  split.
  - intros He Hc. unfold stripExtension, exec. cbn [app].
    rewrite (extension_search ext He Hc s 0). cbn [r_index r_end Nat.add].
    rewrite firstn_app, firstn_all, Nat.sub_diag. cbn [firstn].
    rewrite app_nil_r.
    rewrite skipn_all2; [apply app_nil_r|].
    rewrite length_app. cbn [List.length]. unfold code_unit. lia.
  - intros Hs. unfold stripExtension, exec.
    destruct (searchFrom extensionRe 0 s) as [m|] eqn:E; [exfalso|reflexivity].
    destruct (search_text _ _ _ E) as [here [st' [Hm Hw]]].
    destruct (extensionRe_reads _ _ Hm) as [w [R _]].
    destruct (Hw _ R) as [_ [before [after Hp]]].
    rewrite Hp, !forallb_app in Hs. simpl in Hs. rewrite andb_false_r in Hs.
    discriminate.
Qed.

Lemma stripExtension_removes_last_witness :
  stripExtension (u "archive.tar" ++ [46%N] ++ u "gz") = u "archive.tar" /\
  stripExtension (u "README") = u "README".
Proof.
  split.
  - apply (proj1 (stripExtension_removes_last (u "archive.tar") (u "gz")));
      [discriminate|reflexivity].
  - apply (proj2 (stripExtension_removes_last (u "README") [])). reflexivity.
Defined.

(** ** Blank text, and the parse and ocr endpoints *)

Section BlankFacts.

Lemma blank_lines text : whitespaceOnly text = true -> linesOf text = [].
Proof.
  intros H. rewrite linesOf_as_splitOn. unfold splitOn.
  assert (G : forall s cur, forallb isWs s = true -> forallb isWs cur = true ->
              filter truthy (map trim (splitOnAux isLF s cur)) = []).
  { induction s as [|c s IH]; intros cur Hs Hc; simpl.
    - replace (trim (rev cur)) with (@nil code_unit); [reflexivity|].
      symmetry. apply trim_nil_iff. unfold whitespaceOnly.
      rewrite forallb_rev. exact Hc.
    - simpl in Hs. apply andb_prop in Hs. destruct Hs as [H1 H2].
      destruct (isLF c).
      + simpl. replace (trim (rev cur)) with (@nil code_unit).
        * simpl. apply IH; [exact H2|reflexivity].
        * symmetry. apply trim_nil_iff. unfold whitespaceOnly.
          rewrite forallb_rev. exact Hc.
      + apply IH; [exact H2|]. simpl. rewrite H1, Hc. reflexivity. }
  apply G; [exact H|reflexivity].
Qed.

Lemma blank_part (text w : jsstring) c :
  whitespaceOnly text = true -> partOf w text -> In c w -> isWs c = true.
Proof.
  intros H [before [after E]] Hin. unfold whitespaceOnly in H.
  rewrite E, !forallb_app in H.
  apply andb_prop in H. destruct H as [_ H].
  apply andb_prop in H. destruct H as [H _].
  rewrite forallb_forall in H. exact (H c Hin).
Qed.

Lemma blank_parse text :
  whitespaceOnly text = true ->
  parse text = mkParsed None None None [] [] [] text.
Proof.
  intros H. unfold parse. cbn [nullish].
  rewrite (blank_lines text H). cbn [parseName parseSkills parseSections firstn
    skillsScan fold_left acc_experience acc_education].
  assert (E : exec emailRe text = None).
  { unfold exec. destruct (searchFrom emailRe 0 text) as [m|] eqn:E; [exfalso|reflexivity].
    destruct (search_text _ _ _ E) as [here [st' [Hm Hw]]].
    destruct (emailRe_reads _ _ Hm) as [w [R [l [d [t [-> _]]]]]].
    destruct (Hw _ R) as [_ Hp].
    assert (W : isWs 64%N = true).
    { apply (blank_part text _ 64%N H Hp). apply in_or_app. right. left. reflexivity. }
    discriminate. }
  assert (P : matchAll phoneRe text = None).
  { destruct (matchAll phoneRe text) as [[|p tl]|] eqn:E'; [| |reflexivity].
    - unfold matchAll in E'. destruct (matchAllFrom _ _ _ _); discriminate.
    - exfalso. destruct (matchAll_first _ _ _ _ E') as [m [Hs <-]].
      destruct (search_text _ _ _ Hs) as [here [st' [Hm Hw]]].
      destruct (phoneRe_reads _ _ Hm) as [w [R [sign [digits [-> [_ [Hd Hl]]]]]]].
      destruct (Hw _ R) as [_ Hp].
      destruct digits as [|c digits]; [simpl in Hl; lia|].
      assert (W : isWs c = true).
      { apply (blank_part text _ c H Hp). apply in_or_app. right. left. reflexivity. }
      simpl in Hd. apply andb_prop in Hd. destruct Hd as [Hc _].
      rewrite (digit_not_ws c Hc) in W. discriminate. }
  rewrite E, P. reflexivity.
Qed.

End BlankFacts.

(** X19.  A text of white space only parses to a result without name,
    e-mail, phone, skills or entries, with [raw] the text itself.  The
    parse endpoint rejects a missing body, a missing text and the empty
    string without calling the parser, and hands every other text, blank
    ones included, to the parser. *)
Theorem blank_text_parses_empty text :
  (whitespaceOnly text = true ->
   parse text = mkParsed None None None [] [] [] text) /\
  (text <> [] ->
   parseEndpoint (Some (Some text)) = ([EvParse text], Returned (parse text))) /\
  parseEndpoint None = ([], Thrown NoTextProvided) /\
  parseEndpoint (Some None) = ([], Thrown NoTextProvided) /\
  parseEndpoint (Some (Some [])) = ([], Thrown NoTextProvided).
Proof.
  split; [apply blank_parse|]. split; [|repeat split].
  intros H. unfold parseEndpoint. destruct text; [congruence|reflexivity].
Qed.

Lemma blank_text_parses_empty_witness :
  parse (u "  " ++ [LF] ++ u " ") = mkParsed None None None [] [] [] (u "  " ++ [LF] ++ u " ") /\
  parseEndpoint (Some (Some (u " "))) = ([EvParse (u " ")], Returned (parse (u " "))).
Proof.
  split.
  - apply (proj1 (blank_text_parses_empty (u "  " ++ [LF] ++ u " "))). reflexivity.
  - apply (proj1 (proj2 (blank_text_parses_empty (u " ")))). discriminate.
Defined.

(** X20.  The ocr endpoint has no error handling of its own: on a present
    file it makes one OCR call and ends as that call ends, with its text or
    with its error as it is; a missing file is the bad-request rejection
    itself.  The import-file endpoint reports the same two failures wrapped
    in an internal-server error. *)
Theorem ocr_endpoint_outcomes env :
  (forall f,
     ocr env (Some f)
     = ([EvRecognize (buffer f)], outcome (recognizeImageBuffer env (buffer f)))) /\
  ocr env None = ([], Thrown NoFileProvided) /\
  (forall fuel userId,
     importFile env fuel userId None
     = ([], Thrown (InternalServerErrorException NoFileProvided))) /\
  (forall fuel userId f e,
     isImageMime (mimetype f) = true ->
     outcome (recognizeImageBuffer env (buffer f)) = Thrown e ->
     outcome (ocr env (Some f)) = Thrown e /\
     outcome (importFile env fuel userId (Some f))
       = Thrown (InternalServerErrorException e)).
Proof.
  assert (A : forall f,
            ocr env (Some f)
            = ([EvRecognize (buffer f)],
               outcome (recognizeImageBuffer env (buffer f)))).
  { intros f. unfold ocr.
    destruct (recognize_shape env (buffer f)) as [[v H]|H]; rewrite H; reflexivity. }
  split; [exact A|]. split; [reflexivity|]. split; [reflexivity|].
  intros fuel userId f e Himg He. rewrite A. cbn [outcome snd].
  split; [exact He|].
  destruct (importFile_image env fuel userId f Himg) as [_ H2].
  rewrite (H2 e He). reflexivity.
Qed.

(** An image that the OCR library rejects with [undefined]. *)
Lemma ocr_endpoint_outcomes_witness :
  outcome (ocr rejectingOcrEnv (Some sampleImage)) = Thrown TypeError /\
  outcome (importFile rejectingOcrEnv 1 (u "user") (Some sampleImage))
    = Thrown (InternalServerErrorException TypeError).
Proof.
  apply (proj2 (proj2 (proj2 (ocr_endpoint_outcomes rejectingOcrEnv)))
           1 (u "user") sampleImage TypeError); vm_compute; reflexivity.
Defined.

(** ** [update] *)



(** ** Word documents *)

(** X22.  For a Word upload the three outcomes are told apart by what the
    Word extractor does: MalformedDocument exactly when the extractor is
    missing or throws; NoExtractableText when it returns no text or a
    blank one; otherwise the text it returned, unchanged. *)
Theorem word_extraction_outcomes env file :
  isPdfMime (mimetype file) = false -> isWordMime (mimetype file) = true ->
  (outcome (extractText env file) = Thrown MalformedDocument <->
     match mammothLib env with
     | Some extractRawText => extractRawText (buffer file) = None
     | None => True
     end) /\
  (forall extractRawText value,
     mammothLib env = Some extractRawText ->
     extractRawText (buffer file) = Some value ->
     (whitespaceOnly (nullish value []) = true ->
      outcome (extractText env file) = Thrown NoExtractableText) /\
     (whitespaceOnly (nullish value []) = false ->
      outcome (extractText env file) = Returned (nullish value []))).
Proof.
  intros Hp Hw.
  assert (D : dispatch env file = extractWord env (buffer file))
    by (rewrite dispatch_branches, Hp, Hw; reflexivity).
  unfold extractText. rewrite D, outcome_bind. unfold extractWord.
  rewrite outcome_tryCatch.
  destruct (mammothLib env) as [f|].
  - rewrite outcome_bind. cbn [emit outcome snd].
    destruct (f (buffer file)) as [v|] eqn:E.
    + cbn [ret outcome snd]. split.
      * split; [|discriminate].
        destruct (isBlank (nullish v [])); discriminate.
      * intros g value Hg Hv. injection Hg as <-. rewrite E in Hv.
        injection Hv as <-. split; intros B.
        -- apply isBlank_iff in B. rewrite B. reflexivity.
        -- apply isBlank_false_iff in B. rewrite B. reflexivity.
    + cbn [throw outcome snd]. split; [split; reflexivity|].
      intros g value Hg Hv. injection Hg as <-. rewrite E in Hv. discriminate.
  - cbn [throw outcome snd]. split; [split; [intros _; exact I|reflexivity]|].
    intros g value Hg. discriminate.
Qed.

(** A Word document that holds no text. *)
Lemma word_extraction_outcomes_witness :
  outcome (extractText
             (mkEnv None None None (Some (fun _ => Some (Some (u " "))))
                    (fun b => b) (fun s => s) (fun _ _ => None) (fun _ => None))
             sampleDocx)
  = Thrown NoExtractableText.
Proof.
  apply (proj1 (proj2 (word_extraction_outcomes
           (mkEnv None None None (Some (fun _ => Some (Some (u " "))))
                  (fun b => b) (fun s => s) (fun _ _ => None) (fun _ => None))
           sampleDocx eq_refl eq_refl)
           (fun _ => Some (Some (u " "))) (Some (u " ")) eq_refl eq_refl)).
  reflexivity.
Defined.
